(** * noblocks: the state orchestration of the home page ([src/app/page.tsx])

    The page component [Home] holds the form state of a crypto-to-fiat
    off-ramp, derives a display fee from an on-chain fee ratio, fetches
    institutions, recipient names and exchange rates from an aggregator, and
    selects one of three views.  This development embeds those parts of the
    component in Rocq and states the properties of the specification over
    the embedding.

    - [JS]: the ECMAScript values the component computes with.  A [number]
      is an IEEE 754 binary64 value ([spec_float] at precision 53), so that
      [NaN], signed zeros and rounding are the ones of the language.
    - [FormData], [Watch], [HomeState]: the data of the component.
    - [fee_effect], [render]: the fee calculator and the view switch.
    - [Async]: bodies of [async] functions, suspended at their [await].
    - [Runtime], [Instance]: timers ([setTimeout] / [clearTimeout]),
      requests in flight and the three effects that fetch, driven by a list
      of events (form changes, time passing, settlements). *)

From Stdlib Require Import ZArith List String Bool Lia QArith Qround Qpower.
From Stdlib Require Import Floats.SpecFloat.
Import ListNotations.

Close Scope Q_scope.
Open Scope string_scope.
Open Scope list_scope.
Open Scope nat_scope.

Set Implicit Arguments.

(* ================================================================== *)
(** ** ECMAScript values *)
(* ================================================================== *)

Module JS.

Local Open Scope Z_scope.

(** The Number type: binary64. *)
Definition prec : Z := 53.
Definition emax : Z := 1024.
Definition number : Type := spec_float.

Definition NaN : number := S754_nan.
Definition Infinity : number := S754_infinity false.
Definition zero : number := S754_zero false.

Definition mul (x y : number) : number := SFmul prec emax x y.
Definition div (x y : number) : number := SFdiv prec emax x y.

(** [a < b], [a <= b] and [a === b] on numbers: all false on [NaN], and
    [-0 === 0]. *)
Definition lt (x y : number) : bool := SFltb x y.
Definition le (x y : number) : bool := SFleb x y.
Definition strict_equal (x y : number) : bool := SFeqb x y.

(** [Object.is] on numbers (SameValue): [NaN] is [NaN], [+0] is not [-0].
    React compares dependencies and state values with it. *)
Definition Object_is (x y : number) : bool :=
  match x, y with
  | S754_zero s, S754_zero s' => Bool.eqb s s'
  | S754_infinity s, S754_infinity s' => Bool.eqb s s'
  | S754_nan, S754_nan => true
  | S754_finite s m e, S754_finite s' m' e' =>
      Bool.eqb s s' && Pos.eqb m m' && Z.eqb e e'
  | _, _ => false
  end.

(** [Number(b)] for a bigint [b]: the nearest binary64 value. *)
Definition Number_of_bigint (b : Z) : number :=
  binary_normalize prec emax b 0 false.

(** [Number(v)] where [v] is a bigint or [undefined]. *)
Definition Number_of_optional_bigint (v : option Z) : number :=
  match v with
  | Some b => Number_of_bigint b
  | None => NaN
  end.

(** [Number(x)] where [x] is a number. *)
Definition Number_of_number (x : number) : number := x.

(** [Number(v)] where [v] is a number or [undefined]. *)
Definition Number_of_optional (v : option number) : number :=
  match v with
  | Some x => x
  | None => NaN
  end.

(** [!v] for a string or [undefined]. *)
Definition falsy_string (v : option string) : bool :=
  match v with
  | Some s => String.eqb s ""
  | None => true
  end.

(** [!v] for a number or [undefined]: [0], [-0] and [NaN] are falsy. *)
Definition falsy_number (v : option number) : bool :=
  match v with
  | Some (S754_zero _) | Some S754_nan | None => true
  | Some _ => false
  end.

(** The strings [Number.prototype.toFixed] returns, by their shape.
    [Str_Decimal neg n f] is the sign, then the decimal digits of [n]
    (padded to more than [f] digits) with a point before the last [f];
    [Str_Number neg x] is the sign followed by [Number::toString(x)],
    which [toFixed] returns for magnitudes of at least 10^21. *)
Inductive NumericString : Type :=
| Str_NaN
| Str_Infinity (negative : bool)
| Str_Decimal (negative : bool) (n : Z) (f : nat)
| Str_Number (negative : bool) (x : number).

(** [10^21 <= m * 2^e], exactly. *)
Definition at_least_1e21 (m : positive) (e : Z) : bool :=
  match e with
  | Zneg p => 10 ^ 21 * 2 ^ Zpos p <=? Zpos m
  | _ => 10 ^ 21 <=? Zpos m * 2 ^ e
  end.

(** The integer [n] for which [n / 10^f - m * 2^e] is closest to zero, the
    larger one when there are two. *)
Definition nearest_scaled (m : positive) (e : Z) (f : nat) : Z :=
  match e with
  | Zneg p => (2 * (Zpos m * 10 ^ Z.of_nat f) + 2 ^ Zpos p) / 2 ^ (Zpos p + 1)
  | _ => Zpos m * 2 ^ e * 10 ^ Z.of_nat f
  end.

(** [x.toFixed(f)] (ECMAScript, Number.prototype.toFixed), [0 <= f <= 100]. *)
Definition toFixed (f : nat) (x : number) : NumericString :=
  match x with
  | S754_nan => Str_NaN
  | S754_infinity s => Str_Infinity s
  | S754_zero _ => Str_Decimal false 0 f
  | S754_finite s m e =>
      if at_least_1e21 m e then Str_Number s (S754_finite false m e)
      else Str_Decimal s (nearest_scaled m e f) f
  end.

(** [s.toString()] on a string. *)
Definition toString (s : NumericString) : NumericString := s.

(** The Number value of the rational [num / den] ([num], [den] positive)
    with the given sign: round to nearest, ties to even. *)
Definition nearest_number (negative : bool) (num den : positive) : number :=
  let '(q, e, l) := SFdiv_core_binary prec emax (Zpos num) 0 (Zpos den) 0 in
  binary_round_aux prec emax negative q e l.

(** [parseFloat(s)] on the strings above.  ["NaN"] has no numeric prefix;
    [Number::toString] prints a number so that it reads back as itself. *)
Definition parseFloat (s : NumericString) : number :=
  match s with
  | Str_NaN => NaN
  | Str_Infinity neg => S754_infinity neg
  | Str_Decimal neg n f =>
      match n with
      | Zpos p => nearest_number neg p (Z.to_pos (10 ^ Z.of_nat f))
      | _ => S754_zero neg
      end
  | Str_Number neg x => if neg then SFopp x else x
  end.

(** Values stored in a plain object: here strings and numbers. *)
Inductive value : Type :=
| VString (s : string)
| VNumber (x : number).

(** [a === b] on values: never true across types. *)
Definition value_strict_equal (a b : value) : bool :=
  match a, b with
  | VString s, VString s' => String.eqb s s'
  | VNumber x, VNumber y => strict_equal x y
  | _, _ => false
  end.

(** An error object, as thrown by a failed request. *)
Inductive Error : Type :=
| MkError (message : string).

End JS.

Export JS (number).

(* ================================================================== *)
(** ** The data of the component *)
(* ================================================================== *)

Module FormData.
(** Modelled from the spec: the type [FormData] of [./types], which is not
    among the sources.  The fields are those of [INITIAL_FORM_STATE], with
    the types of its values. *)
Record t : Type := Build {
  network : string;
  token : string;
  amount : number;
  currency : string;
  institution : string;
  accountIdentifier : string;
  recipientName : string;
  memo : string
}.

(** [Object.values(formValues)]: the values in the order of the keys. *)
Definition values (f : t) : list JS.value :=
  [ JS.VString (network f); JS.VString (token f); JS.VNumber (amount f);
    JS.VString (currency f); JS.VString (institution f);
    JS.VString (accountIdentifier f); JS.VString (recipientName f);
    JS.VString (memo f) ].
End FormData.

Definition INITIAL_FORM_STATE : FormData.t :=
  {| FormData.network := "";
     FormData.token := "";
     FormData.amount := JS.zero;
     FormData.currency := "";
     FormData.institution := "";
     FormData.accountIdentifier := "";
     FormData.recipientName := "";
     FormData.memo := "" |}.

Module Watch.
(** The form values the component reads through [watch()].  A field holds
    [undefined] ([None]) until the form gives it a value. *)
Record t : Type := Build {
  currency : option string;
  amount : option number;
  token : option string;
  accountIdentifier : option string;
  institution : option string
}.

Definition initial : t := Build None None None None None.
End Watch.

(** Modelled from the spec: the type [InstitutionProps] of [./types], which
    is not among the sources: a code and a name. *)
Record InstitutionProps : Type := {
  code : string;
  name : string
}.

(** Modelled from the spec: the response of [fetchRate] of
    [./api/aggregator], which is not among the sources; the component reads
    its [data] field as the rate. *)
Record RateResponse : Type := {
  data : number
}.

Inductive TransactionStatus : Type :=
| idle | pending | processing | fulfilled | validated | settled | refunded.

Definition TransactionStatus_eqb (a b : TransactionStatus) : bool :=
  match a, b with
  | idle, idle | pending, pending | processing, processing
  | fulfilled, fulfilled | validated, validated | settled, settled
  | refunded, refunded => true
  | _, _ => false
  end.

(** The state of [Home]: one field per [useState], with its initial value
    in [initial_state]. *)
Record HomeState : Type := {
  isPageLoading : bool;
  isFetchingInstitutions : bool;
  isFetchingRate : bool;
  isFetchingRecipientName : bool;
  protocolFeePercent : number;
  fee : number;
  rate : number;
  recipientName : string;
  formValues : FormData.t;
  institutions : list InstitutionProps;
  selectedNetwork : string;
  selectedTab : string;
  transactionStatus : TransactionStatus;
  createdAt : string;
  orderId : string
}.

Definition initial_state : HomeState :=
  {| isPageLoading := true;
     isFetchingInstitutions := false;
     isFetchingRate := false;
     isFetchingRecipientName := false;
     protocolFeePercent := JS.zero;
     fee := JS.zero;
     rate := JS.zero;
     recipientName := "";
     formValues := INITIAL_FORM_STATE;
     institutions := [];
     selectedNetwork := "base";
     selectedTab := "bank-transfer";
     transactionStatus := idle;
     createdAt := "";
     orderId := "" |}.

(** The state setters. *)
Definition setIsPageLoading (v : bool) (st : HomeState) : HomeState :=
  {| isPageLoading := v;
     isFetchingInstitutions := isFetchingInstitutions st;
     isFetchingRate := isFetchingRate st;
     isFetchingRecipientName := isFetchingRecipientName st;
     protocolFeePercent := protocolFeePercent st;
     fee := fee st;
     rate := rate st;
     recipientName := recipientName st;
     formValues := formValues st;
     institutions := institutions st;
     selectedNetwork := selectedNetwork st;
     selectedTab := selectedTab st;
     transactionStatus := transactionStatus st;
     createdAt := createdAt st;
     orderId := orderId st |}.

Definition setIsFetchingInstitutions (v : bool) (st : HomeState) : HomeState :=
  {| isPageLoading := isPageLoading st;
     isFetchingInstitutions := v;
     isFetchingRate := isFetchingRate st;
     isFetchingRecipientName := isFetchingRecipientName st;
     protocolFeePercent := protocolFeePercent st;
     fee := fee st;
     rate := rate st;
     recipientName := recipientName st;
     formValues := formValues st;
     institutions := institutions st;
     selectedNetwork := selectedNetwork st;
     selectedTab := selectedTab st;
     transactionStatus := transactionStatus st;
     createdAt := createdAt st;
     orderId := orderId st |}.

Definition setIsFetchingRate (v : bool) (st : HomeState) : HomeState :=
  {| isPageLoading := isPageLoading st;
     isFetchingInstitutions := isFetchingInstitutions st;
     isFetchingRate := v;
     isFetchingRecipientName := isFetchingRecipientName st;
     protocolFeePercent := protocolFeePercent st;
     fee := fee st;
     rate := rate st;
     recipientName := recipientName st;
     formValues := formValues st;
     institutions := institutions st;
     selectedNetwork := selectedNetwork st;
     selectedTab := selectedTab st;
     transactionStatus := transactionStatus st;
     createdAt := createdAt st;
     orderId := orderId st |}.

Definition setIsFetchingRecipientName (v : bool) (st : HomeState) : HomeState :=
  {| isPageLoading := isPageLoading st;
     isFetchingInstitutions := isFetchingInstitutions st;
     isFetchingRate := isFetchingRate st;
     isFetchingRecipientName := v;
     protocolFeePercent := protocolFeePercent st;
     fee := fee st;
     rate := rate st;
     recipientName := recipientName st;
     formValues := formValues st;
     institutions := institutions st;
     selectedNetwork := selectedNetwork st;
     selectedTab := selectedTab st;
     transactionStatus := transactionStatus st;
     createdAt := createdAt st;
     orderId := orderId st |}.

Definition setProtocolFeePercent (v : number) (st : HomeState) : HomeState :=
  {| isPageLoading := isPageLoading st;
     isFetchingInstitutions := isFetchingInstitutions st;
     isFetchingRate := isFetchingRate st;
     isFetchingRecipientName := isFetchingRecipientName st;
     protocolFeePercent := v;
     fee := fee st;
     rate := rate st;
     recipientName := recipientName st;
     formValues := formValues st;
     institutions := institutions st;
     selectedNetwork := selectedNetwork st;
     selectedTab := selectedTab st;
     transactionStatus := transactionStatus st;
     createdAt := createdAt st;
     orderId := orderId st |}.

Definition setFee (v : number) (st : HomeState) : HomeState :=
  {| isPageLoading := isPageLoading st;
     isFetchingInstitutions := isFetchingInstitutions st;
     isFetchingRate := isFetchingRate st;
     isFetchingRecipientName := isFetchingRecipientName st;
     protocolFeePercent := protocolFeePercent st;
     fee := v;
     rate := rate st;
     recipientName := recipientName st;
     formValues := formValues st;
     institutions := institutions st;
     selectedNetwork := selectedNetwork st;
     selectedTab := selectedTab st;
     transactionStatus := transactionStatus st;
     createdAt := createdAt st;
     orderId := orderId st |}.

Definition setRate (v : number) (st : HomeState) : HomeState :=
  {| isPageLoading := isPageLoading st;
     isFetchingInstitutions := isFetchingInstitutions st;
     isFetchingRate := isFetchingRate st;
     isFetchingRecipientName := isFetchingRecipientName st;
     protocolFeePercent := protocolFeePercent st;
     fee := fee st;
     rate := v;
     recipientName := recipientName st;
     formValues := formValues st;
     institutions := institutions st;
     selectedNetwork := selectedNetwork st;
     selectedTab := selectedTab st;
     transactionStatus := transactionStatus st;
     createdAt := createdAt st;
     orderId := orderId st |}.

Definition setRecipientName (v : string) (st : HomeState) : HomeState :=
  {| isPageLoading := isPageLoading st;
     isFetchingInstitutions := isFetchingInstitutions st;
     isFetchingRate := isFetchingRate st;
     isFetchingRecipientName := isFetchingRecipientName st;
     protocolFeePercent := protocolFeePercent st;
     fee := fee st;
     rate := rate st;
     recipientName := v;
     formValues := formValues st;
     institutions := institutions st;
     selectedNetwork := selectedNetwork st;
     selectedTab := selectedTab st;
     transactionStatus := transactionStatus st;
     createdAt := createdAt st;
     orderId := orderId st |}.

Definition setFormValues (v : FormData.t) (st : HomeState) : HomeState :=
  {| isPageLoading := isPageLoading st;
     isFetchingInstitutions := isFetchingInstitutions st;
     isFetchingRate := isFetchingRate st;
     isFetchingRecipientName := isFetchingRecipientName st;
     protocolFeePercent := protocolFeePercent st;
     fee := fee st;
     rate := rate st;
     recipientName := recipientName st;
     formValues := v;
     institutions := institutions st;
     selectedNetwork := selectedNetwork st;
     selectedTab := selectedTab st;
     transactionStatus := transactionStatus st;
     createdAt := createdAt st;
     orderId := orderId st |}.

Definition setInstitutions (v : list InstitutionProps) (st : HomeState) : HomeState :=
  {| isPageLoading := isPageLoading st;
     isFetchingInstitutions := isFetchingInstitutions st;
     isFetchingRate := isFetchingRate st;
     isFetchingRecipientName := isFetchingRecipientName st;
     protocolFeePercent := protocolFeePercent st;
     fee := fee st;
     rate := rate st;
     recipientName := recipientName st;
     formValues := formValues st;
     institutions := v;
     selectedNetwork := selectedNetwork st;
     selectedTab := selectedTab st;
     transactionStatus := transactionStatus st;
     createdAt := createdAt st;
     orderId := orderId st |}.

Definition setSelectedNetwork (v : string) (st : HomeState) : HomeState :=
  {| isPageLoading := isPageLoading st;
     isFetchingInstitutions := isFetchingInstitutions st;
     isFetchingRate := isFetchingRate st;
     isFetchingRecipientName := isFetchingRecipientName st;
     protocolFeePercent := protocolFeePercent st;
     fee := fee st;
     rate := rate st;
     recipientName := recipientName st;
     formValues := formValues st;
     institutions := institutions st;
     selectedNetwork := v;
     selectedTab := selectedTab st;
     transactionStatus := transactionStatus st;
     createdAt := createdAt st;
     orderId := orderId st |}.

Definition setSelectedTab (v : string) (st : HomeState) : HomeState :=
  {| isPageLoading := isPageLoading st;
     isFetchingInstitutions := isFetchingInstitutions st;
     isFetchingRate := isFetchingRate st;
     isFetchingRecipientName := isFetchingRecipientName st;
     protocolFeePercent := protocolFeePercent st;
     fee := fee st;
     rate := rate st;
     recipientName := recipientName st;
     formValues := formValues st;
     institutions := institutions st;
     selectedNetwork := selectedNetwork st;
     selectedTab := v;
     transactionStatus := transactionStatus st;
     createdAt := createdAt st;
     orderId := orderId st |}.

Definition setTransactionStatus (v : TransactionStatus) (st : HomeState) : HomeState :=
  {| isPageLoading := isPageLoading st;
     isFetchingInstitutions := isFetchingInstitutions st;
     isFetchingRate := isFetchingRate st;
     isFetchingRecipientName := isFetchingRecipientName st;
     protocolFeePercent := protocolFeePercent st;
     fee := fee st;
     rate := rate st;
     recipientName := recipientName st;
     formValues := formValues st;
     institutions := institutions st;
     selectedNetwork := selectedNetwork st;
     selectedTab := selectedTab st;
     transactionStatus := v;
     createdAt := createdAt st;
     orderId := orderId st |}.

Definition setCreatedAt (v : string) (st : HomeState) : HomeState :=
  {| isPageLoading := isPageLoading st;
     isFetchingInstitutions := isFetchingInstitutions st;
     isFetchingRate := isFetchingRate st;
     isFetchingRecipientName := isFetchingRecipientName st;
     protocolFeePercent := protocolFeePercent st;
     fee := fee st;
     rate := rate st;
     recipientName := recipientName st;
     formValues := formValues st;
     institutions := institutions st;
     selectedNetwork := selectedNetwork st;
     selectedTab := selectedTab st;
     transactionStatus := transactionStatus st;
     createdAt := v;
     orderId := orderId st |}.

Definition setOrderId (v : string) (st : HomeState) : HomeState :=
  {| isPageLoading := isPageLoading st;
     isFetchingInstitutions := isFetchingInstitutions st;
     isFetchingRate := isFetchingRate st;
     isFetchingRecipientName := isFetchingRecipientName st;
     protocolFeePercent := protocolFeePercent st;
     fee := fee st;
     rate := rate st;
     recipientName := recipientName st;
     formValues := formValues st;
     institutions := institutions st;
     selectedNetwork := selectedNetwork st;
     selectedTab := selectedTab st;
     transactionStatus := transactionStatus st;
     createdAt := createdAt st;
     orderId := v |}.

(* ================================================================== *)
(** ** Event handlers *)
(* ================================================================== *)

Definition onSubmit (data : FormData.t) (st : HomeState) : HomeState :=
  setFormValues data st.

Definition handleNetworkChange (network : string) (st : HomeState) : HomeState :=
  setSelectedNetwork network st.

Definition handleTabChange (tab : string) (st : HomeState) : HomeState :=
  setSelectedTab tab st.

Definition clearForm (st : HomeState) : HomeState :=
  setFormValues INITIAL_FORM_STATE st.

Definition clearTransactionStatus (st : HomeState) : HomeState :=
  setTransactionStatus idle st.

Definition handleBackButtonClick (st : HomeState) : HomeState :=
  setFormValues INITIAL_FORM_STATE st.

(* ================================================================== *)
(** ** The fee calculator *)
(* ================================================================== *)

(** [protocolFeeDetails?.[i]]: the component of the pair read from the
    contract, [undefined] while the read has not resolved. *)
Definition fee_detail_0 (protocolFeeDetails : option (Z * Z)) : option Z :=
  option_map fst protocolFeeDetails.

Definition fee_detail_1 (protocolFeeDetails : option (Z * Z)) : option Z :=
  option_map snd protocolFeeDetails.

(** [Number(protocolFeeDetails?.[0]!) / Number(protocolFeeDetails?.[1]!)] *)
Definition fee_ratio (protocolFeeDetails : option (Z * Z)) : number :=
  JS.div (JS.Number_of_optional_bigint (fee_detail_0 protocolFeeDetails))
         (JS.Number_of_optional_bigint (fee_detail_1 protocolFeeDetails)).

(** [parseFloat(Number(protocolFeePercent * Number(amount)).toFixed(5).toString())] *)
Definition display_fee (protocolFeePercent : number) (amount : option number)
  : number :=
  JS.parseFloat
    (JS.toString
       (JS.toFixed 5
          (JS.Number_of_number
             (JS.mul protocolFeePercent (JS.Number_of_optional amount))))).

(** One run of the effect that calculates the fee.  [st] is the state of the
    render the effect belongs to: [protocolFeePercent st] is the value the
    closure of the effect holds, and the two setters take effect in the next
    render. *)
Definition fee_effect (protocolFeeDetails : option (Z * Z))
  (amount : option number) (st : HomeState) : HomeState :=
  setFee (display_fee (protocolFeePercent st) amount)
    (setProtocolFeePercent (fee_ratio protocolFeeDetails) st).

(** The renders that follow while [protocolFeeDetails] and [amount] stay as
    they are: of the dependencies [[protocolFeeDetails, amount,
    protocolFeePercent]] only the last can change, and the effect runs again
    when [Object.is] tells the new value from the one of the previous run.
    [previous] is the [protocolFeePercent] of the render of the last run,
    [None] before the first. *)
Fixpoint fee_renders (fuel : nat) (protocolFeeDetails : option (Z * Z))
  (amount : option number) (previous : option number) (st : HomeState)
  : HomeState :=
  match fuel with
  | O => st
  | S fuel' =>
      let unchanged :=
        match previous with
        | Some p => JS.Object_is p (protocolFeePercent st)
        | None => false
        end in
      if unchanged then st
      else fee_renders fuel' protocolFeeDetails amount
             (Some (protocolFeePercent st))
             (fee_effect protocolFeeDetails amount st)
  end.

(** The effect of the first render: [setIsPageLoading(false)]. *)
Definition page_loaded_effect (st : HomeState) : HomeState :=
  setIsPageLoading false st.

(* ================================================================== *)
(** ** The view switch *)
(* ================================================================== *)

(** The data [Home] hands to its children in [stateProps] (the handlers and
    setters it also passes are left out). *)
Record StateProps : Type := {
  props_formValues : FormData.t;
  props_fee : number;
  props_rate : number;
  props_isFetchingRate : bool;
  props_recipientName : string;
  props_isFetchingRecipientName : bool;
  props_institutions : list InstitutionProps;
  props_isFetchingInstitutions : bool;
  props_selectedTab : string;
  props_selectedNetwork : string
}.

Definition stateProps (st : HomeState) : StateProps :=
  {| props_formValues := formValues st;
     props_fee := fee st;
     props_rate := rate st;
     props_isFetchingRate := isFetchingRate st;
     props_recipientName := recipientName st;
     props_isFetchingRecipientName := isFetchingRecipientName st;
     props_institutions := institutions st;
     props_isFetchingInstitutions := isFetchingInstitutions st;
     props_selectedTab := selectedTab st;
     props_selectedNetwork := selectedNetwork st |}.

(** The page inside [AnimatePresence]. *)
Inductive Page : Type :=
| TransactionStatusPage (status : TransactionStatus)
    (created_at order_id recipient_name : string)
| TransactionFormPage (props : StateProps)
| TransactionPreviewPage (props : StateProps).

(** The [key] of the [AnimatedPage] that wraps the page. *)
Definition page_key (p : Page) : string :=
  match p with
  | TransactionStatusPage _ _ _ _ => "transaction-status"
  | TransactionFormPage _ => "transaction-form"
  | TransactionPreviewPage _ => "transaction-preview"
  end.

Inductive View : Type :=
| StatusView | FormView | PreviewView.

Definition view_of (p : Page) : View :=
  match p with
  | TransactionStatusPage _ _ _ _ => StatusView
  | TransactionFormPage _ => FormView
  | TransactionPreviewPage _ => PreviewView
  end.

(** [Object.values(formValues).every((value) => value === "" || value === 0)] *)
Definition form_is_empty (formValues : FormData.t) : bool :=
  forallb
    (fun value =>
       JS.value_strict_equal value (JS.VString "")
       || JS.value_strict_equal value (JS.VNumber JS.zero))
    (FormData.values formValues).

Record Rendered : Type := {
  preloader_isLoading : bool;
  page : Page
}.

(** What [Home] returns. *)
Definition render (st : HomeState) : Rendered :=
  {| preloader_isLoading := isPageLoading st;
     page :=
       if negb (TransactionStatus_eqb (transactionStatus st) idle) then
         TransactionStatusPage (transactionStatus st) (createdAt st)
           (orderId st) (props_recipientName (stateProps st))
       else if form_is_empty (formValues st) then
         TransactionFormPage (stateProps st)
       else
         TransactionPreviewPage (stateProps st) |}.

(* ================================================================== *)
(** ** Asynchronous functions *)
(* ================================================================== *)

(** The calls to the aggregator ([./api/aggregator]). *)
Inductive Request : Type :=
| fetchSupportedInstitutions (currency : string)
| fetchAccountName (institution accountIdentifier : string)
| fetchRate (token : string) (amount : number) (currency : string).

(** What the promise of a request resolves to. *)
Definition Response (request : Request) : Type :=
  match request with
  | fetchSupportedInstitutions _ => list InstitutionProps
  | fetchAccountName _ _ => string
  | fetchRate _ _ _ => RateResponse
  end.

Inductive Settled (R : Type) : Type :=
| Fulfilled (value : R)
| Rejected (error : JS.Error).

Arguments Fulfilled {R} value.
Arguments Rejected {R} error.

(** The body of an [async] function of the component, as the tree of what
    it does next: return, throw, set a state, log to the console, or wait
    for a request, with the rest of the body for either way the promise
    settles. *)
Inductive Async (A : Type) : Type :=
| Return (a : A)
| Throw (error : JS.Error)
| SetState (update : HomeState -> HomeState) (next : Async A)
| ConsoleLog (error : JS.Error) (next : Async A)
| Await (request : Request) (resume : Settled (Response request) -> Async A).

Arguments Return {A} a.
Arguments Throw {A} error.
Arguments SetState {A} update next.
Arguments ConsoleLog {A} error next.
Arguments Await {A} request resume.

Fixpoint bind {A B : Type} (p : Async A) (k : A -> Async B) : Async B :=
  match p with
  | Return a => k a
  | Throw error => Throw error
  | SetState update next => SetState update (bind next k)
  | ConsoleLog error next => ConsoleLog error (bind next k)
  | Await request resume => Await request (fun r => bind (resume r) k)
  end.

(** [try { body } catch (error) { handler }] *)
Fixpoint try_catch {A : Type} (body : Async A) (handler : JS.Error -> Async A)
  : Async A :=
  match body with
  | Return a => Return a
  | Throw error => handler error
  | SetState update next => SetState update (try_catch next handler)
  | ConsoleLog error next => ConsoleLog error (try_catch next handler)
  | Await request resume =>
      Await request (fun r => try_catch (resume r) handler)
  end.

(** [await request]: the value of the promise, or its rejection thrown. *)
Definition await (request : Request) : Async (Response request) :=
  Await request
    (fun r =>
       match r with
       | Fulfilled value => Return value
       | Rejected error => Throw error
       end).

Definition set_state (update : HomeState -> HomeState) : Async unit :=
  SetState update (Return tt).

Definition console_log (error : JS.Error) : Async unit :=
  ConsoleLog error (Return tt).

Declare Scope async_scope.
Delimit Scope async_scope with async.
Notation "x <- p ;; q" := (bind p (fun x => q))
  (at level 61, p at next level, right associativity) : async_scope.
Notation "p ;; q" := (bind p (fun _ => q))
  (at level 61, right associativity) : async_scope.
Notation "'TRY' body 'CATCH' error '=>' handler" :=
  (try_catch body (fun error => handler))
  (at level 62, error name, body at level 61, handler at level 61)
  : async_scope.

Local Open Scope async_scope.

(** [getInstitutions], with the [currency] of the render it closes over. *)
Definition getInstitutions (w : Watch.t) : Async unit :=
  match Watch.currency w with
  | Some currency =>
      if JS.falsy_string (Watch.currency w) then Return tt
      else
        set_state (setIsFetchingInstitutions true) ;;
        (TRY
           institutions <- await (fetchSupportedInstitutions currency) ;;
           set_state (setInstitutions institutions) ;;
           set_state (setIsFetchingInstitutions false)
         CATCH error =>
           console_log error)
  | None => Return tt
  end.

(** [getRecipientName], with the [accountIdentifier] and [institution] of
    the render it closes over. *)
Definition getRecipientName (w : Watch.t) : Async unit :=
  match Watch.accountIdentifier w, Watch.institution w with
  | Some accountIdentifier, Some institution =>
      if JS.falsy_string (Watch.accountIdentifier w)
         || JS.falsy_string (Watch.institution w)
      then Return tt
      else
        set_state (setIsFetchingRecipientName true) ;;
        (TRY
           accountName <- await (fetchAccountName institution accountIdentifier) ;;
           set_state (setRecipientName accountName) ;;
           set_state (setIsFetchingRecipientName false)
         CATCH error =>
           set_state (setRecipientName "") ;;
           set_state (setIsFetchingRecipientName false))
  | _, _ => Return tt
  end.

(** [getRate], with the [currency], [amount] and [token] of the render it
    closes over. *)
Definition getRate (w : Watch.t) : Async unit :=
  match Watch.currency w, Watch.amount w with
  | Some currency, Some amount =>
      if JS.falsy_string (Watch.currency w)
         || JS.falsy_number (Watch.amount w)
         || JS.falsy_string (Watch.token w)
      then Return tt
      else
        set_state (setIsFetchingRate true) ;;
        (TRY
           rate <- await (fetchRate "USDT" amount currency) ;;
           set_state (setRate (data rate)) ;;
           set_state (setIsFetchingRate false)
         CATCH error =>
           console_log error)
  | _, _ => Return tt
  end.

Local Close Scope async_scope.

(** What an asynchronous function can see and change besides the network:
    the state of the component and the console. *)
Record World : Type := {
  home : HomeState;
  console : list JS.Error
}.

(** Run a body up to its next [await] or to its end: the world it leaves
    and what remains of the body ([Return], [Throw] or [Await]). *)
Fixpoint run_sync {A : Type} (p : Async A) (w : World) : World * Async A :=
  match p with
  | SetState update next =>
      run_sync next {| home := update (home w); console := console w |}
  | ConsoleLog error next =>
      run_sync next {| home := home w; console := console w ++ [error] |}
  | _ => (w, p)
  end.

(** How the aggregator settles a request. *)
Inductive Outcome : Type :=
| ResolveInstitutions (institutions : list InstitutionProps)
| ResolveAccountName (accountName : string)
| ResolveRate (rate : RateResponse)
| Reject (error : JS.Error).

(** The outcome as the settlement of the promise of [request]; [None] when
    the outcome is not a response to this kind of request. *)
Definition settlement (request : Request) (o : Outcome)
  : option (Settled (Response request)) :=
  match request return option (Settled (Response request)) with
  | fetchSupportedInstitutions _ =>
      match o with
      | ResolveInstitutions l => Some (Fulfilled l)
      | Reject error => Some (Rejected error)
      | _ => None
      end
  | fetchAccountName _ _ =>
      match o with
      | ResolveAccountName s => Some (Fulfilled s)
      | Reject error => Some (Rejected error)
      | _ => None
      end
  | fetchRate _ _ _ =>
      match o with
      | ResolveRate r => Some (Fulfilled r)
      | Reject error => Some (Rejected error)
      | _ => None
      end
  end.

(** The body that continues a suspended one when its request settles. *)
Definition resume_with {A : Type} (p : Async A) (o : Outcome)
  : option (Async A) :=
  match p with
  | Await request resume => option_map resume (settlement request o)
  | _ => None
  end.

(** The request a suspended body waits for. *)
Definition awaited {A : Type} (p : Async A) : option Request :=
  match p with
  | Await request _ => Some request
  | _ => None
  end.

(* ================================================================== *)
(** ** Timers, requests in flight and the effects that fetch *)
(* ================================================================== *)

(** The function a timer calls, with the values of the render it closes
    over. *)
Inductive Callback : Type :=
| call_getRecipientName (closure : Watch.t)
| call_getRate (closure : Watch.t).

Definition callback_body (c : Callback) : Async unit :=
  match c with
  | call_getRecipientName w => getRecipientName w
  | call_getRate w => getRate w
  end.

Record Timer : Type := {
  timeoutId : nat;
  due : nat;
  callback : Callback
}.

(** The event loop as the component sees it.  Time is in milliseconds.
    [sent] logs every request with the time it left; [in_flight] holds the
    suspended bodies by the number of their request; [unhandled] collects
    the rejections of asynchronous functions that nothing caught. *)
Record Runtime : Type := {
  now : nat;
  next_id : nat;
  timers : list Timer;
  in_flight : list (nat * Async unit);
  sent : list (nat * Request);
  unhandled : list JS.Error;
  world : World
}.

Definition initial_runtime : Runtime :=
  {| now := 0;
     next_id := 0;
     timers := [];
     in_flight := [];
     sent := [];
     unhandled := [];
     world := {| home := initial_state; console := [] |} |}.

(** [setTimeout(callback, delay)]: the runtime with the timer, and its id. *)
Definition setTimeout (c : Callback) (delay : nat) (rt : Runtime)
  : Runtime * nat :=
  ({| now := now rt;
      next_id := S (next_id rt);
      timers := timers rt ++
                [ {| timeoutId := next_id rt;
                     due := now rt + delay;
                     callback := c |} ];
      in_flight := in_flight rt;
      sent := sent rt;
      unhandled := unhandled rt;
      world := world rt |},
   next_id rt).

(** [clearTimeout(id)]; nothing happens for [undefined] or a timer that has
    fired. *)
Definition clearTimeout (id : option nat) (rt : Runtime) : Runtime :=
  match id with
  | Some i =>
      {| now := now rt;
         next_id := next_id rt;
         timers := filter (fun t => negb (timeoutId t =? i)) (timers rt);
         in_flight := in_flight rt;
         sent := sent rt;
         unhandled := unhandled rt;
         world := world rt |}
  | None => rt
  end.

(** Run a body in the runtime until it suspends or ends.  A body that
    suspends sends its request and waits in [in_flight]. *)
Definition continue (p : Async unit) (rt : Runtime) : Runtime :=
  let '(w, rest) := run_sync p (world rt) in
  match rest with
  | Await request _ =>
      {| now := now rt;
         next_id := S (next_id rt);
         timers := timers rt;
         in_flight := in_flight rt ++ [(next_id rt, rest)];
         sent := sent rt ++ [(now rt, request)];
         unhandled := unhandled rt;
         world := w |}
  | Throw error =>
      {| now := now rt;
         next_id := next_id rt;
         timers := timers rt;
         in_flight := in_flight rt;
         sent := sent rt;
         unhandled := unhandled rt ++ [error];
         world := w |}
  | _ =>
      {| now := now rt;
         next_id := next_id rt;
         timers := timers rt;
         in_flight := in_flight rt;
         sent := sent rt;
         unhandled := unhandled rt;
         world := w |}
  end.

(** The effect on [[currency]]: it calls [getInstitutions] at once and
    returns no cleanup. *)
Definition institutions_effect (w : Watch.t) (rt : Runtime) : Runtime :=
  continue (getInstitutions w) rt.

(** The effect on [[accountIdentifier]].  Its [timeoutId] starts undefined;
    [debounceFetchRecipientName] clears it and sets the timer.  The id
    returned is the one the cleanup of this run clears. *)
Definition recipient_name_effect (w : Watch.t) (rt : Runtime)
  : Runtime * nat :=
  setTimeout (call_getRecipientName w) 1000 (clearTimeout None rt).

(** The effect on [[currency, amount, token]], of the same shape. *)
Definition rate_effect (w : Watch.t) (rt : Runtime) : Runtime * nat :=
  setTimeout (call_getRate w) 1000 (clearTimeout None rt).

(** [Object.is] on the dependencies. *)
Definition same_string (a b : option string) : bool :=
  match a, b with
  | Some x, Some y => String.eqb x y
  | None, None => true
  | _, _ => false
  end.

Definition same_number (a b : option number) : bool :=
  match a, b with
  | Some x, Some y => JS.Object_is x y
  | None, None => true
  | _, _ => false
  end.

Definition institutions_deps_changed (w w' : Watch.t) : bool :=
  negb (same_string (Watch.currency w) (Watch.currency w')).

Definition recipient_name_deps_changed (w w' : Watch.t) : bool :=
  negb (same_string (Watch.accountIdentifier w) (Watch.accountIdentifier w')).

Definition rate_deps_changed (w w' : Watch.t) : bool :=
  negb (same_string (Watch.currency w) (Watch.currency w'))
  || negb (same_number (Watch.amount w) (Watch.amount w'))
  || negb (same_string (Watch.token w) (Watch.token w')).

(** A mounted [Home]: the runtime, the form values of the last render, and
    the timer each debounced effect will clear in its cleanup. *)
Record Instance : Type := {
  runtime : Runtime;
  watched : Watch.t;
  recipient_name_timeout : option nat;
  rate_timeout : option nat
}.

(** The first render: each of the three effects that fetch runs, on the
    initial form values.  (The runs of the effect that calculates the fee
    are [fee_renders]; the effect of the first render alone is
    [page_loaded_effect].) *)
Definition mount : Instance :=
  let rt := institutions_effect Watch.initial initial_runtime in
  let '(rt, recipient_id) := recipient_name_effect Watch.initial rt in
  let '(rt, rate_id) := rate_effect Watch.initial rt in
  {| runtime := rt;
     watched := Watch.initial;
     recipient_name_timeout := Some recipient_id;
     rate_timeout := Some rate_id |}.

(** A render with new form values: the cleanups of the effects whose
    dependencies changed, then these effects, in the order of the source. *)
Definition rerender (w' : Watch.t) (i : Instance) : Instance :=
  let w := watched i in
  let rt := runtime i in
  let rt :=
    if recipient_name_deps_changed w w'
    then clearTimeout (recipient_name_timeout i) rt else rt in
  let rt :=
    if rate_deps_changed w w'
    then clearTimeout (rate_timeout i) rt else rt in
  let rt :=
    if institutions_deps_changed w w'
    then institutions_effect w' rt else rt in
  let '(rt, recipient_id) :=
    if recipient_name_deps_changed w w'
    then let '(rt', id) := recipient_name_effect w' rt in (rt', Some id)
    else (rt, recipient_name_timeout i) in
  let '(rt, rate_id) :=
    if rate_deps_changed w w'
    then let '(rt', id) := rate_effect w' rt in (rt', Some id)
    else (rt, rate_timeout i) in
  {| runtime := rt;
     watched := w';
     recipient_name_timeout := recipient_id;
     rate_timeout := rate_id |}.

Definition at_time (t : nat) (rt : Runtime) : Runtime :=
  {| now := t;
     next_id := next_id rt;
     timers := timers rt;
     in_flight := in_flight rt;
     sent := sent rt;
     unhandled := unhandled rt;
     world := world rt |}.

Definition with_timers (ts : list Timer) (rt : Runtime) : Runtime :=
  {| now := now rt;
     next_id := next_id rt;
     timers := ts;
     in_flight := in_flight rt;
     sent := sent rt;
     unhandled := unhandled rt;
     world := world rt |}.

(** A timer fires: its callback runs at the time the timer was due. *)
Definition fire (rt : Runtime) (t : Timer) : Runtime :=
  continue (callback_body (callback t)) (at_time (Nat.max (now rt) (due t)) rt).

Definition is_due (target : nat) (t : Timer) : bool := due t <=? target.

(** [ms] milliseconds pass: the timers due by then fire, oldest first (all
    delays are equal, so the timers are listed in the order they are due). *)
Definition elapse (ms : nat) (rt : Runtime) : Runtime :=
  let target := now rt + ms in
  at_time target
    (fold_left fire (filter (is_due target) (timers rt))
       (with_timers (filter (fun t => negb (is_due target t)) (timers rt)) rt)).

(** The aggregator settles the request numbered [id]. *)
Definition settle (id : nat) (o : Outcome) (rt : Runtime) : Runtime :=
  match find (fun entry => fst entry =? id) (in_flight rt) with
  | Some (_, p) =>
      match resume_with p o with
      | Some rest =>
          continue rest
            {| now := now rt;
               next_id := next_id rt;
               timers := timers rt;
               in_flight :=
                 filter (fun entry => negb (fst entry =? id)) (in_flight rt);
               sent := sent rt;
               unhandled := unhandled rt;
               world := world rt |}
      | None => rt
      end
  | None => rt
  end.

(** What happens to a mounted [Home]. *)
Inductive Event : Type :=
| FormChange (w' : Watch.t)
| Elapse (ms : nat)
| Settle (id : nat) (o : Outcome).

Definition step (i : Instance) (ev : Event) : Instance :=
  match ev with
  | FormChange w' => rerender w' i
  | Elapse ms =>
      {| runtime := elapse ms (runtime i);
         watched := watched i;
         recipient_name_timeout := recipient_name_timeout i;
         rate_timeout := rate_timeout i |}
  | Settle id o =>
      {| runtime := settle id o (runtime i);
         watched := watched i;
         recipient_name_timeout := recipient_name_timeout i;
         rate_timeout := rate_timeout i |}
  end.

Definition run (events : list Event) (i : Instance) : Instance :=
  fold_left step events i.

(** Changes of single form fields. *)
Definition with_currency (v : string) (w : Watch.t) : Watch.t :=
  Watch.Build (Some v) (Watch.amount w) (Watch.token w)
    (Watch.accountIdentifier w) (Watch.institution w).

Definition with_amount (v : number) (w : Watch.t) : Watch.t :=
  Watch.Build (Watch.currency w) (Some v) (Watch.token w)
    (Watch.accountIdentifier w) (Watch.institution w).

Definition with_token (v : string) (w : Watch.t) : Watch.t :=
  Watch.Build (Watch.currency w) (Watch.amount w) (Some v)
    (Watch.accountIdentifier w) (Watch.institution w).

Definition with_accountIdentifier (v : string) (w : Watch.t) : Watch.t :=
  Watch.Build (Watch.currency w) (Watch.amount w) (Watch.token w)
    (Some v) (Watch.institution w).

Definition with_institution (v : string) (w : Watch.t) : Watch.t :=
  Watch.Build (Watch.currency w) (Watch.amount w) (Watch.token w)
    (Watch.accountIdentifier w) (Some v).

(** The requests of each kind among those sent. *)
Definition is_institutions_request (r : Request) : bool :=
  match r with fetchSupportedInstitutions _ => true | _ => false end.

Definition is_account_name_request (r : Request) : bool :=
  match r with fetchAccountName _ _ => true | _ => false end.

Definition is_rate_request (r : Request) : bool :=
  match r with fetchRate _ _ _ => true | _ => false end.

Definition requests_sent (kind : Request -> bool) (i : Instance)
  : list (nat * Request) :=
  filter (fun entry => kind (snd entry)) (sent (runtime i)).

(* ================================================================== *)
(** ** Completions of the fetchers *)
(* ================================================================== *)

Inductive Fetcher : Type :=
| Institutions | RecipientName | Rate.

Definition Fetcher_eqb (f g : Fetcher) : bool :=
  match f, g with
  | Institutions, Institutions | RecipientName, RecipientName
  | Rate, Rate => true
  | _, _ => false
  end.

Definition fetcher_body (f : Fetcher) (closure : Watch.t) : Async unit :=
  match f with
  | Institutions => getInstitutions closure
  | RecipientName => getRecipientName closure
  | Rate => getRate closure
  end.

(** Where a body first suspends or ends: what [run_sync] leaves of it. *)
Fixpoint stops_at {A : Type} (p : Async A) : Async A :=
  match p with
  | SetState _ next => stops_at next
  | ConsoleLog _ next => stops_at next
  | _ => p
  end.

(** The request of one call of a fetcher settles: the function called, the
    values it closed over, and the outcome. *)
Record Completion : Type := {
  fetcher : Fetcher;
  closure : Watch.t;
  outcome : Outcome
}.

(** The world after the completion [c] runs in the world [w]: the body
    suspended by the call continues with the outcome.  A call that sent no
    request has nothing to complete. *)
Definition complete (w : World) (c : Completion) : World :=
  match resume_with (stops_at (fetcher_body (fetcher c) (closure c)))
          (outcome c) with
  | Some rest => fst (run_sync rest w)
  | None => w
  end.

Definition complete_all (cs : list Completion) (w : World) : World :=
  fold_left complete cs w.

(** The completions of one fetcher among [cs], in their order. *)
Definition completions_of (f : Fetcher) (cs : list Completion)
  : list Completion :=
  filter (fun c => Fetcher_eqb (fetcher c) f) cs.

(** The state slots a fetcher writes agree in two states. *)
Definition same_slots (f : Fetcher) (st st' : HomeState) : Prop :=
  match f with
  | Institutions =>
      institutions st = institutions st'
      /\ isFetchingInstitutions st = isFetchingInstitutions st'
  | RecipientName =>
      recipientName st = recipientName st'
      /\ isFetchingRecipientName st = isFetchingRecipientName st'
  | Rate =>
      rate st = rate st'
      /\ isFetchingRate st = isFetchingRate st'
  end.

(** The slots no fetcher writes agree in two states. *)
Definition same_other_slots (st st' : HomeState) : Prop :=
  isPageLoading st = isPageLoading st'
  /\ protocolFeePercent st = protocolFeePercent st'
  /\ fee st = fee st'
  /\ formValues st = formValues st'
  /\ selectedNetwork st = selectedNetwork st'
  /\ selectedTab st = selectedTab st'
  /\ transactionStatus st = transactionStatus st'
  /\ createdAt st = createdAt st'
  /\ orderId st = orderId st'.

(* ================================================================== *)
(** ** Notions of the specification *)
(* ================================================================== *)

(** A value that equals the empty string or zero, as [===] has it: the
    empty string, or one of the two zeros of the Number type. *)
Definition empty_string_or_zero (v : JS.value) : Prop :=
  v = JS.VString "" \/ exists s : bool, v = JS.VNumber (S754_zero s).

(** The rational a finite number denotes. *)
Definition exact_value (x : number) : Q :=
  match x with
  | S754_finite s m e =>
      ((if s then -1 else 1) * inject_Z (Zpos m) * Qpower 2 e)%Q
  | _ => 0%Q
  end.

Definition is_finite (x : number) : bool :=
  match x with
  | S754_finite _ _ _ | S754_zero _ => true
  | _ => false
  end.

(** Rounding to the nearest integer, halves upwards. *)
Definition round_half_up (q : Q) : Z := Qfloor (q + (1 # 2))%Q.

(** [y] is a Number value of the rational [n / d]: either [y] denotes it
    exactly, or [y] is [n / d] rounded to the nearest number. *)
Definition Number_value_of (n : Z) (d : positive) (y : number) : Prop :=
  (is_finite y = true /\ (exact_value y == n # d)%Q)
  \/ match n with
     | Zpos p => y = JS.nearest_number false p d
     | Zneg p => y = JS.nearest_number true p d
     | Z0 => y = JS.zero
     end.

(** [y] is [x] rounded to [k] decimal places: the Number value of
    [round_half_up (x * 10^k) / 10^k].  [NaN] and the infinities round to
    themselves. *)
Definition rounded_to_decimals (k : nat) (x y : number) : Prop :=
  match x with
  | S754_nan | S754_infinity _ => y = x
  | _ =>
      Number_value_of
        (round_half_up (exact_value x * inject_Z (10 ^ Z.of_nat k))%Q)
        (Z.to_pos (10 ^ Z.of_nat k)) y
  end.

(** The windows of at least 1000 ms in which the dependencies of a fetcher
    ([changed] tells when they change) stay as they are: [quiet] is the
    time since their last change, [w] the form values of the last render. *)
Fixpoint quiescent_windows (changed : Watch.t -> Watch.t -> bool)
  (w : Watch.t) (quiet : nat) (events : list Event) : nat :=
  match events with
  | [] => if 1000 <=? quiet then 1 else 0
  | FormChange w' :: rest =>
      if changed w w'
      then (if 1000 <=? quiet then 1 else 0)
           + quiescent_windows changed w' 0 rest
      else quiescent_windows changed w' quiet rest
  | Elapse ms :: rest => quiescent_windows changed w (quiet + ms) rest
  | Settle _ _ :: rest => quiescent_windows changed w quiet rest
  end.

(** The requests for institutions a list of events asks for when every
    change of the currency to a non-empty value sends one at once: [w] is
    the form values of the last render, [t] the time. *)
Fixpoint currency_changes (w : Watch.t) (t : nat) (events : list Event)
  : list (nat * Request) :=
  match events with
  | [] => []
  | FormChange w' :: rest =>
      match Watch.currency w' with
      | Some currency =>
          if institutions_deps_changed w w'
             && negb (JS.falsy_string (Watch.currency w'))
          then (t, fetchSupportedInstitutions currency)
               :: currency_changes w' t rest
          else currency_changes w' t rest
      | None => currency_changes w' t rest
      end
  | Elapse ms :: rest => currency_changes w (t + ms) rest
  | Settle _ _ :: rest => currency_changes w t rest
  end.

(** The fetcher a timer calls, and the fetcher a request belongs to. *)
Definition callback_fetcher (cb : Callback) : Fetcher :=
  match cb with
  | call_getRecipientName _ => RecipientName
  | call_getRate _ => Rate
  end.

Definition request_fetcher (r : Request) : Fetcher :=
  match r with
  | fetchSupportedInstitutions _ => Institutions
  | fetchAccountName _ _ => RecipientName
  | fetchRate _ _ _ => Rate
  end.

Definition is_timer_of (f : Fetcher) (t : Timer) : bool :=
  Fetcher_eqb (callback_fetcher (callback t)) f.

Definition is_request_of (f : Fetcher) (r : Request) : bool :=
  Fetcher_eqb (request_fetcher r) f.

(** The dependencies of the effect of each fetcher. *)
Definition deps_changed (f : Fetcher) : Watch.t -> Watch.t -> bool :=
  match f with
  | Institutions => institutions_deps_changed
  | RecipientName => recipient_name_deps_changed
  | Rate => rate_deps_changed
  end.

(** The timers of the two debounced effects are told apart by their ids:
    every pending timer carries the id its effect will clear. *)
Definition timers_owned (i : Instance) : Prop :=
  exists r q : nat,
    recipient_name_timeout i = Some r
    /\ rate_timeout i = Some q
    /\ r <> q
    /\ r < next_id (runtime i)
    /\ q < next_id (runtime i)
    /\ forall t : Timer,
        In t (timers (runtime i)) ->
        timeoutId t = match callback_fetcher (callback t) with
                      | Rate => q
                      | _ => r
                      end.

(** The debounce of fetcher [f], [quiet] ms after the last change of its
    dependencies: either its timer is pending and due 1000 ms after that
    change, or it has fired and the 1000 ms have passed. *)
Definition debounce_state (f : Fetcher) (i : Instance) (quiet : nat) : Prop :=
  let pending := filter (is_timer_of f) (timers (runtime i)) in
  (pending = [] /\ 1000 <= quiet)
  \/ (exists t : Timer,
         pending = [t]
         /\ now (runtime i) < due t
         /\ due t + quiet = now (runtime i) + 1000).

(** Whether the window under way has used its request: the timer of the
    fetcher fired, so none is pending. *)
Definition window_used (f : Fetcher) (i : Instance) : nat :=
  match filter (is_timer_of f) (timers (runtime i)) with
  | [] => 1
  | _ => 0
  end.

Definition requests_of (f : Fetcher) (i : Instance) : list (nat * Request) :=
  filter (fun entry => is_request_of f (snd entry)) (sent (runtime i)).

(** A suspended body that, once its request settles, runs to its end
    without another request and without throwing. *)
Definition one_shot (p : Async unit) : Prop :=
  forall (o : Outcome) (rest : Async unit),
    resume_with p o = Some rest ->
    forall w : World, exists w' : World, run_sync rest w = (w', Return tt).

(** A body in flight that is the call of a fetcher, suspended at its
    request. *)
Definition fetcher_call (p : Async unit) : Prop :=
  exists (f : Fetcher) (c : Watch.t), p = stops_at (fetcher_body f c).

(** The instances in which every body in flight is the call of a fetcher
    and no rejection went unhandled. *)
Definition settled_locally (i : Instance) : Prop :=
  Forall (fun entry => fetcher_call (snd entry)) (in_flight (runtime i))
  /\ unhandled (runtime i) = [].

(* ================================================================== *)
(** ** The callbacks of the pages and unmounting *)
(* ================================================================== *)

(** What the pages [Home] renders can do to its state: the callbacks it
    hands to them, in [stateProps] and as props of the pages. *)
Inductive Action : Type :=
| Submit (data : FormData.t)
| TabChange (tab : string)
| NetworkChange (network : string)
| SetCreatedAt (createdAt : string)
| SetOrderId (orderId : string)
| SetTransactionStatus (status : TransactionStatus)
| ClearForm
| ClearTransactionStatus
| BackButtonClick.

Definition act (st : HomeState) (a : Action) : HomeState :=
  match a with
  | Submit data => onSubmit data st
  | TabChange tab => handleTabChange tab st
  | NetworkChange network => handleNetworkChange network st
  | SetCreatedAt v => setCreatedAt v st
  | SetOrderId v => setOrderId v st
  | SetTransactionStatus v => setTransactionStatus v st
  | ClearForm => clearForm st
  | ClearTransactionStatus => clearTransactionStatus st
  | BackButtonClick => handleBackButtonClick st
  end.

(** Unmounting [Home]: the cleanups of the two debounced effects run; the
    effect that fetches the institutions returns none. *)
Definition unmount (i : Instance) : Runtime :=
  clearTimeout (rate_timeout i)
    (clearTimeout (recipient_name_timeout i) (runtime i)).

(* ================================================================== *)
(** ** The earlier form of [Home]: the recipient account and the memo *)
(* ================================================================== *)

Module EarlierHome.

(** The value of a text input: a string as a sequence of UTF-16 code
    units, which is what [length] counts and what a pattern reads. *)
Definition text : Type := list N.

(** [\d], without the [u] and [i] flags: one of the code units of
    ["0"] to ["9"]. *)
Definition is_digit (c : N) : bool := ((48 <=? c) && (c <=? 57))%N.

(** [\d{n}] matched at the start of [s]. *)
Fixpoint digits_at_start (n : nat) (s : text) : bool :=
  match n with
  | O => true
  | S n' =>
      match s with
      | c :: s' => is_digit c && digits_at_start n' s'
      | [] => false
      end
  end.

(** [/\d{10}/.test(value)], the [pattern] the field [recipientAccount] is
    registered with: the pattern has no anchors, so a match is tried at
    each index from the first on. *)
Fixpoint recipientAccount_pattern (value : text) : bool :=
  digits_at_start 10 value
  || match value with
     | _ :: rest => recipientAccount_pattern rest
     | [] => false
     end.

(** [limit - (watch(field)?.length ?? 0)], the count shown beside the
    fields [recipientAccount] (limit 10) and [memo] (limit 20); the value is
    [undefined] until the field holds one. *)
Definition characters_left (limit : Z) (value : option text) : Z :=
  (limit - match value with
           | Some s => Z.of_nat (List.length s)
           | None => 0
           end)%Z.

End EarlierHome.

(* ================================================================== *)
(** ** Invariants of the runtime *)
(* ================================================================== *)

(** Two runtimes that differ in their timers and clock at most, the second
    having handed out at least the ids of the first. *)
Definition same_net (rt rt' : Runtime) : Prop :=
  in_flight rt' = in_flight rt
  /\ world rt' = world rt
  /\ unhandled rt' = unhandled rt
  /\ sent rt' = sent rt
  /\ next_id rt <= next_id rt'.

(** The entries in flight that wait for a request of fetcher [f]. *)
Definition awaits (f : Fetcher) (entry : nat * Async unit) : bool :=
  match awaited (snd entry) with
  | Some request => is_request_of f request
  | None => false
  end.

(** The requests in flight are calls of the fetchers, under ids that are
    distinct and were handed out by the runtime. *)
Definition in_flight_ok (rt : Runtime) : Prop :=
  Forall (fun entry => fetcher_call (snd entry)) (in_flight rt)
  /\ NoDup (map fst (in_flight rt))
  /\ Forall (fun entry => fst entry < next_id rt) (in_flight rt).

(** The closure of a pending timer holds the values of its dependencies
    that the form holds. *)
Definition closure_current (w : Watch.t) (t : Timer) : Prop :=
  match callback t with
  | call_getRecipientName c =>
      Watch.accountIdentifier c = Watch.accountIdentifier w
  | call_getRate c =>
      Watch.currency c = Watch.currency w
      /\ Watch.amount c = Watch.amount w
      /\ Watch.token c = Watch.token w
  end.

(** A request a timer sends asks for what the form holds: the rate of its
    amount and currency, the name of its account identifier. *)
Definition request_current (w : Watch.t) (r : Request) : Prop :=
  match r with
  | fetchSupportedInstitutions _ => False
  | fetchAccountName _ accountIdentifier =>
      Watch.accountIdentifier w = Some accountIdentifier
  | fetchRate _ amount currency =>
      Watch.amount w = Some amount /\ Watch.currency w = Some currency
  end.

(** A request whose parameters passed the guard of its fetcher: no empty
    currency, institution or account identifier, and an amount that is
    neither zero nor [NaN]. *)
Definition request_is_complete (r : Request) : bool :=
  match r with
  | fetchSupportedInstitutions currency =>
      negb (JS.falsy_string (Some currency))
  | fetchAccountName institution accountIdentifier =>
      negb (JS.falsy_string (Some institution))
      && negb (JS.falsy_string (Some accountIdentifier))
  | fetchRate _ amount currency =>
      negb (JS.falsy_number (Some amount))
      && negb (JS.falsy_string (Some currency))
  end.

(* ================================================================== *)
(** ** The view switch: properties *)
(* ================================================================== *)

Lemma TransactionStatus_eqb_eq (a b : TransactionStatus) :
  TransactionStatus_eqb a b = true <-> a = b.
Proof.
  split.
  - destruct a, b; simpl; intros H; try reflexivity; discriminate H.
  - intros ->. destruct b; reflexivity.
Qed.

Lemma view_of_render (st : HomeState) :
  view_of (page (render st)) =
  if TransactionStatus_eqb (transactionStatus st) idle
  then if form_is_empty (formValues st) then FormView else PreviewView
  else StatusView.
Proof.
  unfold render; simpl.
  destruct (TransactionStatus_eqb (transactionStatus st) idle); simpl.
  - destruct (form_is_empty (formValues st)); reflexivity.
  - reflexivity.
Qed.

(** C2: whatever [formValues] holds, a [transactionStatus] other than
    ["idle"] renders the transaction-status view; and the view chosen is a
    function of [transactionStatus] and [formValues] alone: two states that
    agree on both render the same view. *)
Theorem status_view_unless_idle :
  (forall st : HomeState,
      transactionStatus st <> idle ->
      view_of (page (render st)) = StatusView
      /\ page_key (page (render st)) = "transaction-status")
  /\ (forall st st' : HomeState,
         transactionStatus st = transactionStatus st' ->
         formValues st = formValues st' ->
         view_of (page (render st)) = view_of (page (render st'))).
Proof.
  split.
  - intros st Hst.
    assert (E : TransactionStatus_eqb (transactionStatus st) idle = false).
    { destruct (TransactionStatus_eqb (transactionStatus st) idle) eqn:E;
        [ apply TransactionStatus_eqb_eq in E; contradiction | reflexivity ]. }
    unfold render; simpl. rewrite E. simpl. split; reflexivity.
  - intros st st' Hs Hf. rewrite !view_of_render, Hs, Hf. reflexivity.
Qed.

Lemma status_view_unless_idle_witness :
  view_of (page (render (setTransactionStatus pending
                           (setFormValues INITIAL_FORM_STATE initial_state))))
  = StatusView
  /\ view_of (page (render (setFee JS.NaN initial_state)))
     = view_of (page (render initial_state)).
Proof.
  split.
  - apply (proj1 status_view_unless_idle). simpl. discriminate.
  - apply (proj2 status_view_unless_idle); reflexivity.
Defined.

Lemma strict_equal_zero (x : number) :
  JS.strict_equal x JS.zero = true <-> exists s, x = S754_zero s.
Proof.
  unfold JS.strict_equal, JS.zero, SFeqb. split.
  - destruct x as [s | s | | s m e]; simpl; intros H.
    + exists s; reflexivity.
    + destruct s; discriminate H.
    + discriminate H.
    + destruct s; discriminate H.
  - intros [s ->]. reflexivity.
Qed.

Lemma default_value_spec (v : JS.value) :
  JS.value_strict_equal v (JS.VString "")
  || JS.value_strict_equal v (JS.VNumber JS.zero) = true
  <-> empty_string_or_zero v.
Proof.
  unfold empty_string_or_zero. destruct v as [s | x]; simpl.
  - rewrite orb_false_r, String.eqb_eq. split.
    + intros ->. left; reflexivity.
    + intros [H | [s' H]]; [ injection H; auto | discriminate H ].
  - rewrite strict_equal_zero. split.
    + intros [s ->]. right. exists s; reflexivity.
    + intros [H | [s H]]; [ discriminate H | injection H as ->; eauto ].
Qed.

(** Field by field: the strings are empty and the amount is a zero. *)
Lemma form_is_empty_fields (f : FormData.t) :
  form_is_empty f = true <->
  FormData.network f = "" /\ FormData.token f = ""
  /\ (exists s : bool, FormData.amount f = S754_zero s)
  /\ FormData.currency f = "" /\ FormData.institution f = ""
  /\ FormData.accountIdentifier f = "" /\ FormData.recipientName f = ""
  /\ FormData.memo f = "".
Proof.
  unfold form_is_empty, FormData.values. cbn [forallb JS.value_strict_equal].
  rewrite !orb_false_r, !andb_true_iff, !String.eqb_eq.
  change (false || JS.strict_equal (FormData.amount f) JS.zero)
    with (JS.strict_equal (FormData.amount f) JS.zero).
  rewrite strict_equal_zero. tauto.
Qed.

(** C3: [formValues] counts as empty exactly when every one of its fields
    equals the empty string or 0; and while [transactionStatus] is ["idle"]
    the preview view is rendered exactly when [formValues] is not empty, the
    form view otherwise. *)
Theorem empty_form_picks_the_form_view :
  (forall f : FormData.t,
      form_is_empty f = true <->
      Forall empty_string_or_zero (FormData.values f))
  /\ (forall f : FormData.t,
         form_is_empty f = true <->
         FormData.network f = "" /\ FormData.token f = ""
         /\ (exists s : bool, FormData.amount f = S754_zero s)
         /\ FormData.currency f = "" /\ FormData.institution f = ""
         /\ FormData.accountIdentifier f = ""
         /\ FormData.recipientName f = "" /\ FormData.memo f = "")
  /\ (forall st : HomeState,
         transactionStatus st = idle ->
         (view_of (page (render st)) = PreviewView <->
          form_is_empty (formValues st) = false)
         /\ (view_of (page (render st)) = FormView <->
             form_is_empty (formValues st) = true)).
Proof.
  split; [| split ].
  - intros f. unfold form_is_empty. rewrite forallb_forall, Forall_forall.
    split; intros H v Hv; apply default_value_spec; apply H; exact Hv.
  - exact form_is_empty_fields.
  - intros st Hst. rewrite view_of_render, Hst. simpl.
    destruct (form_is_empty (formValues st)); split; split;
      intros H; try reflexivity; discriminate H.
Qed.

Lemma empty_form_picks_the_form_view_witness :
  (view_of (page (render initial_state)) = PreviewView <->
   form_is_empty (formValues initial_state) = false)
  /\ (view_of (page (render initial_state)) = FormView <->
      form_is_empty (formValues initial_state) = true).
Proof.
  apply (proj2 (proj2 empty_form_picks_the_form_view)). reflexivity.
Defined.

(* ================================================================== *)
(** ** Rounding to five decimals *)
(* ================================================================== *)

Lemma Pos_pow_1_l (p : positive) : (1 ^ p = 1)%positive.
Proof.
  apply Pos2Z.inj. rewrite Pos2Z.inj_pow. apply Z.pow_1_l. lia.
Qed.

Lemma Qpower_2_neg (p : positive) :
  Qpower 2 (Zneg p) = (1 # 2 ^ p)%Q.
Proof.
  simpl. rewrite Qpower_decomp_positive.
  rewrite Pos_pow_1_l.
  change (2 ^ Zpos p)%Z with (Zpos 2 ^ Zpos p)%Z.
  rewrite <- Pos2Z.inj_pow. reflexivity.
Qed.

Lemma Qpower_2_pos (p : positive) :
  Qpower 2 (Zpos p) = inject_Z (Zpos (2 ^ p)).
Proof.
  simpl. rewrite Qpower_decomp_positive.
  rewrite Pos_pow_1_l.
  change (2 ^ Zpos p)%Z with (Zpos 2 ^ Zpos p)%Z.
  rewrite <- Pos2Z.inj_pow. reflexivity.
Qed.

(** The integer [toFixed] prints is the scaled value rounded half up. *)
Lemma nearest_scaled_spec (m : positive) (e : Z) (k : nat) :
  JS.nearest_scaled m e k
  = round_half_up
      (exact_value (S754_finite false m e) * inject_Z (10 ^ Z.of_nat k))%Q.
Proof.
  unfold JS.nearest_scaled, round_half_up, exact_value.
  generalize (10 ^ Z.of_nat k)%Z as T. intros T.
  destruct e as [| p | p].
  - unfold Qfloor, Qplus, Qmult, inject_Z. simpl.
    rewrite Z.div_add_l by lia.
    change (1 / 2)%Z with 0%Z. lia.
  - rewrite Qpower_2_pos.
    unfold Qfloor, Qplus, Qmult, inject_Z.
    cbn [Qnum Qden].
    change (Zpos (1 * 1 * 1 * 1 * 2)) with 2%Z.
    change (1 * Zpos (1 * 1 * 1 * 1))%Z with 1%Z.
    rewrite Z.div_add_l by lia.
    change (1 / 2)%Z with 0%Z.
    rewrite Pos2Z.inj_pow. lia.
  - rewrite Qpower_2_neg.
    unfold Qfloor, Qplus, Qmult, inject_Z.
    cbn [Qnum Qden].
    f_equal.
    + rewrite !Pos.mul_1_l, !Pos.mul_1_r.
      rewrite Pos2Z.inj_pow. lia.
    + rewrite !Pos.mul_1_l, !Pos.mul_1_r.
      rewrite Z.pow_add_r by lia.
      rewrite Pos2Z.inj_mul, Pos2Z.inj_pow. lia.
Qed.

(** *** The mantissa of a rounded number has at most 53 bits *)

Lemma digits2_pos_bound (m : positive) :
  (Zpos m < 2 ^ Zpos (digits2_pos m))%Z.
Proof.
  induction m as [m IH | m IH |]; cbn [digits2_pos].
  - rewrite Pos2Z.inj_succ, Z.pow_succ_r by lia. lia.
  - rewrite Pos2Z.inj_succ, Z.pow_succ_r by lia. lia.
  - reflexivity.
Qed.

Lemma shr_1_half (mrs : shr_record) :
  (0 <= shr_m mrs)%Z ->
  shr_m (shr_1 mrs) = (shr_m mrs / 2)%Z /\ (0 <= shr_m (shr_1 mrs))%Z.
Proof.
  destruct mrs as [m r s]. cbn [shr_m]. intros Hm.
  destruct m as [| [p | p |] |]; cbn [shr_1 shr_m]; try lia; split;
    try lia; try reflexivity.
  - apply Z.div_unique with 1%Z; lia.
  - apply Z.div_unique with 0%Z; lia.
Qed.

Lemma pow2_xO (p : positive) :
  (2 ^ Zpos p~0 = 2 ^ Zpos p * 2 ^ Zpos p)%Z.
Proof. rewrite <- Z.pow_add_r by lia. f_equal. lia. Qed.

Lemma pow2_xI (p : positive) :
  (2 ^ Zpos p~1 = 2 * (2 ^ Zpos p * 2 ^ Zpos p))%Z.
Proof.
  rewrite <- Z.pow_add_r, <- Z.pow_succ_r by lia. f_equal. lia.
Qed.

Lemma iter_shr_1 (p : positive) :
  forall mrs : shr_record,
    (0 <= shr_m mrs)%Z ->
    shr_m (iter_pos shr_1 p mrs) = (shr_m mrs / 2 ^ Zpos p)%Z.
Proof.
  induction p as [p IH | p IH |]; intros mrs Hm; cbn [iter_pos].
  - destruct (shr_1_half mrs Hm) as [H1 H1'].
    assert (H2' : (0 <= shr_m (iter_pos shr_1 p (shr_1 mrs)))%Z).
    { rewrite IH by exact H1'. apply Z.div_pos; lia. }
    rewrite IH by exact H2'. rewrite IH by exact H1'. rewrite H1.
    rewrite !Zdiv.Zdiv_Zdiv by lia. rewrite pow2_xI. reflexivity.
  - assert (H2' : (0 <= shr_m (iter_pos shr_1 p mrs))%Z).
    { rewrite IH by exact Hm. apply Z.div_pos; lia. }
    rewrite IH by exact H2'. rewrite IH by exact Hm.
    rewrite Zdiv.Zdiv_Zdiv by lia. rewrite pow2_xO. reflexivity.
  - rewrite (proj1 (shr_1_half mrs Hm)). reflexivity.
Qed.

Lemma shr_record_of_loc_m (m : Z) (l : location) :
  shr_m (shr_record_of_loc m l) = m.
Proof. destruct l as [| []]; reflexivity. Qed.

Lemma Zdigits2_bound (m : Z) :
  (0 <= m)%Z -> (m < 2 ^ Zdigits2 m)%Z /\ (0 <= Zdigits2 m)%Z.
Proof.
  destruct m as [| p | p]; cbn [Zdigits2]; intros H.
  - split; [ reflexivity | lia ].
  - split; [ apply digits2_pos_bound | lia ].
  - lia.
Qed.

(** After [shr_fexp] the mantissa fits the precision. *)
Lemma shr_fexp_bound (m e : Z) (l : location) :
  (0 <= m)%Z ->
  (0 <= shr_m (fst (shr_fexp JS.prec JS.emax m e l)) < 2 ^ 53)%Z.
Proof.
  intros Hm. unfold shr_fexp, shr.
  destruct (Zdigits2_bound Hm) as [Hd Hd0].
  remember (fexp JS.prec JS.emax (Zdigits2 m + e) - e)%Z as n eqn:En.
  assert (Hn : (Zdigits2 m - 53 <= n)%Z).
  { subst n. unfold fexp, JS.prec. lia. }
  destruct n as [| p | p]; cbn [fst].
  - rewrite shr_record_of_loc_m. split; [ exact Hm |].
    eapply Z.lt_le_trans; [ exact Hd |]. apply Z.pow_le_mono_r; lia.
  - rewrite iter_shr_1 by (rewrite shr_record_of_loc_m; exact Hm).
    rewrite shr_record_of_loc_m. split.
    + apply Z.div_pos; lia.
    + apply Z.div_lt_upper_bound; [ lia |].
      rewrite <- Z.pow_add_r by lia.
      eapply Z.lt_le_trans; [ exact Hd |]. apply Z.pow_le_mono_r; lia.
  - rewrite shr_record_of_loc_m. split; [ exact Hm |].
    eapply Z.lt_le_trans; [ exact Hd |]. apply Z.pow_le_mono_r; lia.
Qed.

Lemma round_nearest_even_nonneg (m : Z) (l : location) :
  (0 <= m)%Z -> (0 <= round_nearest_even m l)%Z.
Proof.
  intros Hm. destruct l as [| []]; cbn [round_nearest_even]; try lia.
  destruct (Z.even m); lia.
Qed.

(** What [binary_round_aux] can return on a mantissa that is not negative:
    never [NaN], always the sign it was given, and a mantissa below 2^53. *)
Lemma binary_round_aux_shape (s : bool) (m e : Z) (l : location) :
  (0 <= m)%Z ->
  match binary_round_aux JS.prec JS.emax s m e l with
  | S754_nan => False
  | S754_zero s' | S754_infinity s' => s' = s
  | S754_finite s' m' _ => s' = s /\ (Zpos m' < 2 ^ 53)%Z
  end.
Proof.
  intros Hm. unfold binary_round_aux.
  pose proof (shr_fexp_bound e l Hm) as H1.
  destruct (shr_fexp JS.prec JS.emax m e l) as [mrs' e'].
  cbn [fst] in H1.
  assert (Hr : (0 <= round_nearest_even (shr_m mrs')
                       (loc_of_shr_record mrs'))%Z)
    by (apply round_nearest_even_nonneg; lia).
  pose proof (shr_fexp_bound e' loc_Exact Hr) as H2.
  destruct (shr_fexp JS.prec JS.emax _ e' loc_Exact) as [mrs'' e''].
  cbn [fst] in H2.
  destruct (shr_m mrs'') as [| m' | m']; try lia.
  - reflexivity.
  - destruct (e'' <=? JS.emax - JS.prec)%Z; [ split; [ reflexivity | lia ] | reflexivity ].
Qed.

Lemma mul_mantissa (a b : number) :
  match JS.mul a b with
  | S754_finite _ m _ => (Zpos m < 2 ^ 53)%Z
  | _ => True
  end.
Proof.
  destruct a as [sa | sa | | sa ma ea], b as [sb | sb | | sb mb eb];
    cbn; try exact I.
  pose proof (@binary_round_aux_shape (xorb sa sb) (Zpos (ma * mb))
                (ea + eb) loc_Exact ltac:(lia)) as H.
  change (SFmul JS.prec JS.emax (S754_finite sa ma ea) (S754_finite sb mb eb))
    with (binary_round_aux JS.prec JS.emax (xorb sa sb) (Zpos (ma * mb))
            (ea + eb) loc_Exact).
  destruct (binary_round_aux _ _ _ _ _ _); try exact I. apply H.
Qed.

(** The product of a number that is not negative and a positive one is not
    negative. *)
Lemma mul_sign (a b : number) :
  JS.le JS.zero a = true -> JS.lt JS.zero b = true ->
  match JS.mul a b with
  | S754_finite s _ _ | S754_infinity s => s = false
  | _ => True
  end.
Proof.
  unfold JS.le, JS.lt, SFleb, SFltb, JS.zero.
  destruct a as [sa | sa | | sa ma ea], b as [sb | sb | | sb mb eb];
    cbn; intros Ha Hb; try exact I; try discriminate;
    try (destruct sa; try discriminate); try (destruct sb; try discriminate);
    try reflexivity.
  pose proof (@binary_round_aux_shape false (Zpos (ma * mb))
                (ea + eb) loc_Exact ltac:(lia)) as H.
  change (SFmul JS.prec JS.emax (S754_finite false ma ea)
            (S754_finite false mb eb))
    with (binary_round_aux JS.prec JS.emax false (Zpos (ma * mb))
            (ea + eb) loc_Exact).
  destruct (binary_round_aux _ _ _ _ _ _); try exact I; try apply H.
Qed.

Lemma nearest_scaled_nonneg (m : positive) (e : Z) (k : nat) :
  (0 <= JS.nearest_scaled m e k)%Z.
Proof.
  unfold JS.nearest_scaled.
  assert (HT : (0 <= 10 ^ Z.of_nat k)%Z) by (apply Z.pow_nonneg; lia).
  destruct e as [| p | p].
  - lia.
  - assert (0 <= 2 ^ Zpos p)%Z by (apply Z.pow_nonneg; lia). nia.
  - assert (0 < 2 ^ Zpos p)%Z by (apply Z.pow_pos_nonneg; lia).
    assert (0 < 2 ^ (Zpos p + 1))%Z by (apply Z.pow_pos_nonneg; lia).
    apply Z.div_pos; nia.
Qed.

(** A finite number of at least 10^21 with a mantissa below 2^53 is an
    integer, and so its own rounding. *)
Lemma large_is_integer (m : positive) (e : Z) :
  (Zpos m < 2 ^ 53)%Z -> JS.at_least_1e21 m e = true ->
  (exact_value (S754_finite false m e)
   == round_half_up
        (exact_value (S754_finite false m e) * inject_Z (10 ^ Z.of_nat 5))
      # Z.to_pos (10 ^ Z.of_nat 5))%Q.
Proof.
  intros Hm Hlarge. rewrite <- nearest_scaled_spec.
  unfold JS.at_least_1e21 in Hlarge. unfold JS.nearest_scaled, exact_value.
  change (Z.to_pos (10 ^ Z.of_nat 5)) with 100000%positive.
  change (10 ^ Z.of_nat 5)%Z with 100000%Z.
  destruct e as [| p | p].
  - unfold Qeq, Qmult, inject_Z. cbn [Qnum Qden Qpower]. lia.
  - rewrite Qpower_2_pos. unfold Qeq, Qmult, inject_Z. cbn [Qnum Qden].
    rewrite Pos2Z.inj_pow. lia.
  - exfalso. apply Z.leb_le in Hlarge.
    assert (0 < 2 ^ Zpos p)%Z by (apply Z.pow_pos_nonneg; lia).
    assert (2 ^ 53 < 10 ^ 21)%Z by reflexivity.
    nia.
Qed.

(** [parseFloat(x.toFixed(5).toString())] is [x] rounded to five decimals,
    for [x] that is not negative and has a mantissa below 2^53. *)
Lemma toFixed_rounds (x : number) :
  (forall s m e, x = S754_finite s m e -> s = false /\ (Zpos m < 2 ^ 53)%Z) ->
  rounded_to_decimals 5 x (JS.parseFloat (JS.toString (JS.toFixed 5 x))).
Proof.
  intros Hx. destruct x as [s | s | | s m e].
  - right. reflexivity.
  - reflexivity.
  - reflexivity.
  - destruct (Hx s m e eq_refl) as [-> Hm].
    unfold rounded_to_decimals, JS.toString, JS.toFixed.
    destruct (JS.at_least_1e21 m e) eqn:Hlarge.
    + left. split; [ reflexivity |]. cbn [JS.parseFloat].
      apply large_is_integer; assumption.
    + right. rewrite <- nearest_scaled_spec. cbn [JS.parseFloat].
      pose proof (nearest_scaled_nonneg m e 5) as Hn.
      destruct (JS.nearest_scaled m e 5); try reflexivity. lia.
Qed.

Lemma display_fee_rounds (percent : number) (amount : option number) :
  JS.lt JS.zero (JS.Number_of_optional amount) = true ->
  JS.le JS.zero percent = true ->
  rounded_to_decimals 5 (JS.mul percent (JS.Number_of_optional amount))
    (display_fee percent amount).
Proof.
  intros Ha Hp. unfold display_fee, JS.Number_of_number.
  apply toFixed_rounds.
  intros s m e E.
  pose proof (mul_sign percent (JS.Number_of_optional amount) Hp Ha) as Hs.
  pose proof (mul_mantissa percent (JS.Number_of_optional amount)) as Hm.
  rewrite E in Hs, Hm. split; assumption.
Qed.

(* ================================================================== *)
(** ** The fee calculator: properties *)
(* ================================================================== *)

Lemma fee_ratio_undefined : fee_ratio None = JS.NaN.
Proof. reflexivity. Qed.

Lemma display_fee_NaN (amount : option number) :
  display_fee JS.NaN amount = JS.NaN.
Proof. reflexivity. Qed.

Lemma protocolFeePercent_fee_effect details amount st :
  protocolFeePercent (fee_effect details amount st) = fee_ratio details.
Proof. reflexivity. Qed.

Lemma fee_fee_effect details amount st :
  fee (fee_effect details amount st)
  = display_fee (protocolFeePercent st) amount.
Proof. reflexivity. Qed.

Lemma Object_is_eq (x y : number) : JS.Object_is x y = true <-> x = y.
Proof.
  split.
  - destruct x as [s | s | | s m e], y as [s' | s' | | s' m' e']; simpl;
      intros H; try discriminate H; try reflexivity.
    + apply Bool.eqb_prop in H. congruence.
    + apply Bool.eqb_prop in H. congruence.
    + apply andb_prop in H as [H He]. apply andb_prop in H as [Hs Hm].
      apply Bool.eqb_prop in Hs. apply Pos.eqb_eq in Hm.
      apply Z.eqb_eq in He. congruence.
  - intros <-. destruct x as [s | s | | s m e]; simpl;
      rewrite ?Bool.eqb_reflx, ?Pos.eqb_refl, ?Z.eqb_refl; reflexivity.
Qed.

(** From the second run on, with [protocolFeeDetails] and [amount] as they
    were, the renders have settled: the state holds the ratio of the
    contract and the fee computed from it. *)
Lemma fee_renders_settle (fuel : nat) details amount (st : HomeState) :
  2 <= fuel ->
  let st' := fee_renders fuel details amount None st in
  protocolFeePercent st' = fee_ratio details
  /\ fee st' = display_fee (fee_ratio details) amount.
Proof.
  intros Hfuel.
  destruct fuel as [| [| fuel]]; try lia. clear Hfuel.
  cbn [fee_renders].
  destruct (JS.Object_is (protocolFeePercent st)
              (protocolFeePercent (fee_effect details amount st))) eqn:E.
  - apply Object_is_eq in E. rewrite protocolFeePercent_fee_effect in E.
    rewrite fee_fee_effect, protocolFeePercent_fee_effect, E. split; reflexivity.
  - destruct fuel as [| fuel]; cbn [fee_renders].
    + split; reflexivity.
    + rewrite !protocolFeePercent_fee_effect.
      replace (JS.Object_is (fee_ratio details) (fee_ratio details)) with true
        by (symmetry; apply Object_is_eq; reflexivity).
      split; reflexivity.
Qed.

(** C10: a run of the fee effect while [protocolFeeDetails] is undefined
    sets [protocolFeePercent] to [NaN], and the run after it sets [fee] to
    [NaN], which is not 0; and every run computes [fee] from the
    [protocolFeePercent] of the render it belongs to, whatever ratio the
    same run derives: from the initial state, with the ratio 1/1000 and the
    amount 100, the fee of the first run is not the fee of that ratio. *)
Theorem fee_uses_the_previous_percent :
  (forall (amount : option number) (st : HomeState),
      protocolFeePercent (fee_effect None amount st) = JS.NaN)
  /\ (forall (amount amount' : option number) (st : HomeState),
         fee (fee_effect None amount' (fee_effect None amount st)) = JS.NaN)
  /\ JS.strict_equal JS.NaN JS.zero = false
  /\ (forall (details : option (Z * Z)) (amount : option number)
             (st : HomeState),
         fee (fee_effect details amount st)
         = display_fee (protocolFeePercent st) amount)
  /\ fee (fee_effect (Some (1, 1000)%Z) (Some (JS.Number_of_bigint 100))
            initial_state)
     <> display_fee (fee_ratio (Some (1, 1000)%Z))
          (Some (JS.Number_of_bigint 100)).
Proof.
  split; [| split; [| split; [| split]]].
  - intros amount st. reflexivity.
  - intros amount amount' st. reflexivity.
  - reflexivity.
  - intros details amount st. reflexivity.
  - vm_compute. discriminate.
Qed.

(** The fee of 100 at the ratio 1/1000, once settled, is the number 0.1;
    the fee while the contract has not been read is [NaN]. *)
Example fee_of_100_at_one_per_mille :
  fee (fee_renders 2 (Some (1, 1000)%Z) (Some (JS.Number_of_bigint 100))
         None initial_state)
  = S754_finite false 7205759403792794 (-56).
Proof. reflexivity. Qed.

Example fee_before_the_contract_is_read :
  fee (fee_renders 2 None (Some (JS.Number_of_bigint 100)) None initial_state)
  = JS.NaN.
Proof. reflexivity. Qed.

(** C1, as the code has it: for an amount above 0 and a fee ratio in [0,1]
    read from the contract, once the effect has run again on the
    [protocolFeePercent] it derived (its second run, which the change of
    that dependency triggers, and every later one), [fee] is the ratio
    times the amount, rounded to five decimals. *)
Theorem fee_is_the_rounded_product_once_settled
  (details : option (Z * Z)) (amount : option number) (st : HomeState)
  (fuel : nat) :
  JS.lt JS.zero (JS.Number_of_optional amount) = true ->
  JS.le JS.zero (fee_ratio details) = true ->
  JS.le (fee_ratio details) (JS.Number_of_bigint 1) = true ->
  2 <= fuel ->
  rounded_to_decimals 5
    (JS.mul (fee_ratio details) (JS.Number_of_optional amount))
    (fee (fee_renders fuel details amount None st)).
Proof.
  intros Ha Hp _ Hfuel.
  destruct (fee_renders_settle details amount st Hfuel) as [_ Hfee].
  rewrite Hfee. apply display_fee_rounds; assumption.
Qed.

Lemma fee_is_the_rounded_product_once_settled_witness :
  rounded_to_decimals 5
    (JS.mul (fee_ratio (Some (1, 1000)%Z))
       (JS.Number_of_optional (Some (JS.Number_of_bigint 100))))
    (fee (fee_renders 2 (Some (1, 1000)%Z) (Some (JS.Number_of_bigint 100))
            None initial_state)).
Proof.
  apply fee_is_the_rounded_product_once_settled.
  - reflexivity.
  - reflexivity.
  - reflexivity.
  - lia.
Defined.

(** The same holds of a single run that starts from a state whose
    [protocolFeePercent] already is the ratio. *)
Lemma fee_is_the_rounded_product_when_current
  (details : option (Z * Z)) (amount : option number) (st : HomeState) :
  JS.lt JS.zero (JS.Number_of_optional amount) = true ->
  JS.le JS.zero (fee_ratio details) = true ->
  protocolFeePercent st = fee_ratio details ->
  rounded_to_decimals 5
    (JS.mul (fee_ratio details) (JS.Number_of_optional amount))
    (fee (fee_effect details amount st)).
Proof.
  intros Ha Hp Hst. rewrite fee_fee_effect, Hst.
  apply display_fee_rounds; assumption.
Qed.

(** C1, as stated, fails: with the ratio 1/1000 and the amount 100, the
    fee after the effect has run on the initial state is 0, which is not
    0.1, the product rounded to five decimals. *)
Lemma fee_after_the_first_run_is_stale :
  let details := Some (1, 1000)%Z in
  let amount := Some (JS.Number_of_bigint 100) in
  JS.lt JS.zero (JS.Number_of_optional amount) = true
  /\ JS.le JS.zero (fee_ratio details) = true
  /\ JS.le (fee_ratio details) (JS.Number_of_bigint 1) = true
  /\ fee (fee_effect details amount initial_state) = JS.zero
  /\ ~ rounded_to_decimals 5
         (JS.mul (fee_ratio details) (JS.Number_of_optional amount))
         (fee (fee_effect details amount initial_state)).
Proof.
  intros details amount.
  split; [ reflexivity |]. split; [ reflexivity |].
  split; [ reflexivity |]. split; [ reflexivity |].
  intros H. vm_compute in H. destruct H as [[_ H] | H]; discriminate H.
Qed.

(* ================================================================== *)
(** ** The fetchers: loading flags *)
(* ================================================================== *)

Lemma run_sync_stops_at {A : Type} (p : Async A) (w : World) :
  snd (run_sync p w) = stops_at p.
Proof.
  revert w. induction p as [a | e | u next IH | e next IH | r k IH];
    intros w; simpl; auto.
Qed.

Lemma falsy_string_false (s : string) :
  s <> "" -> JS.falsy_string (Some s) = false.
Proof.
  intros H. simpl. destruct (String.eqb s "") eqn:E; auto.
  apply String.eqb_eq in E. contradiction.
Qed.

Ltac pass_guard :=
  repeat match goal with
  | H : _ = Some _ |- _ => rewrite H
  | H : ?s <> "" |- _ => rewrite (falsy_string_false H)
  | H : JS.falsy_number _ = false |- _ => rewrite H
  end.

(** C9: the loading flag is raised before the request leaves.  When the
    request for institutions or for the rate fails, the flag is still
    raised after the failure has been handled; when the request for the
    recipient name fails, the flag is cleared. *)
Theorem loading_flag_after_failure (error : JS.Error) (w : World) :
  (forall (c : Watch.t) (currency : string),
      Watch.currency c = Some currency -> currency <> "" ->
      let started := fst (run_sync (getInstitutions c) w) in
      isFetchingInstitutions (home started) = true
      /\ exists rest,
          resume_with (snd (run_sync (getInstitutions c) w)) (Reject error)
          = Some rest
          /\ isFetchingInstitutions (home (fst (run_sync rest started)))
             = true)
  /\ (forall (c : Watch.t) (currency token : string) (amount : number),
         Watch.currency c = Some currency -> Watch.amount c = Some amount ->
         Watch.token c = Some token ->
         currency <> "" -> JS.falsy_number (Some amount) = false ->
         token <> "" ->
         let started := fst (run_sync (getRate c) w) in
         isFetchingRate (home started) = true
         /\ exists rest,
             resume_with (snd (run_sync (getRate c) w)) (Reject error)
             = Some rest
             /\ isFetchingRate (home (fst (run_sync rest started))) = true)
  /\ (forall (c : Watch.t) (accountIdentifier institution : string),
         Watch.accountIdentifier c = Some accountIdentifier ->
         Watch.institution c = Some institution ->
         accountIdentifier <> "" -> institution <> "" ->
         let started := fst (run_sync (getRecipientName c) w) in
         isFetchingRecipientName (home started) = true
         /\ exists rest,
             resume_with (snd (run_sync (getRecipientName c) w))
               (Reject error)
             = Some rest
             /\ isFetchingRecipientName (home (fst (run_sync rest started)))
                = false).
Proof.
  split; [| split].
  - intros c cur Hc Hnc.
    unfold getInstitutions. pass_guard. simpl.
    split; [ reflexivity | eexists; split; reflexivity ].
  - intros c cur tok amt Hc Ha Ht Hnc Hna Hnt.
    unfold getRate. pass_guard. simpl.
    split; [ reflexivity | eexists; split; reflexivity ].
  - intros c a i Ha Hi Hna Hni.
    unfold getRecipientName. pass_guard. simpl.
    split; [ reflexivity | eexists; split; reflexivity ].
Qed.

Lemma loading_flag_after_failure_witness :
  let w := {| home := initial_state; console := [] |} in
  let error := JS.MkError "Network Error" in
  let c := with_currency "NGN" Watch.initial in
  let started := fst (run_sync (getInstitutions c) w) in
  isFetchingInstitutions (home started) = true
  /\ exists rest,
      resume_with (snd (run_sync (getInstitutions c) w)) (Reject error)
      = Some rest
      /\ isFetchingInstitutions (home (fst (run_sync rest started))) = true.
Proof.
  intros w error c.
  apply (proj1 (loading_flag_after_failure error w) c "NGN");
    [ reflexivity | discriminate ].
Defined.

(* ================================================================== *)
(** ** The fetchers: disjoint slots *)
(* ================================================================== *)

Lemma same_slots_refl (f : Fetcher) (st : HomeState) : same_slots f st st.
Proof. destruct f; split; reflexivity. Qed.

Lemma same_slots_trans (f : Fetcher) (a b c : HomeState) :
  same_slots f a b -> same_slots f b c -> same_slots f a c.
Proof. destruct f; intros [H1 H2] [H3 H4]; split; congruence. Qed.

Lemma same_slots_sym (f : Fetcher) (a b : HomeState) :
  same_slots f a b -> same_slots f b a.
Proof. destruct f; intros [H1 H2]; split; congruence. Qed.

Lemma same_other_slots_refl (st : HomeState) : same_other_slots st st.
Proof. unfold same_other_slots. repeat split. Qed.

Lemma same_other_slots_trans (a b c : HomeState) :
  same_other_slots a b -> same_other_slots b c -> same_other_slots a c.
Proof.
  unfold same_other_slots. intros H1 H2.
  repeat match goal with H : _ /\ _ |- _ => destruct H end.
  repeat split; congruence.
Qed.

Lemma same_other_slots_sym (a b : HomeState) :
  same_other_slots a b -> same_other_slots b a.
Proof.
  unfold same_other_slots. intros H1.
  repeat match goal with H : _ /\ _ |- _ => destruct H end.
  repeat split; congruence.
Qed.

(** A state is its fifteen slots. *)
Lemma HomeState_ext (st st' : HomeState) :
  same_other_slots st st' ->
  (forall f, same_slots f st st') ->
  st = st'.
Proof.
  intros Ho Hf.
  pose proof (Hf Institutions) as [Hi1 Hi2].
  pose proof (Hf RecipientName) as [Hn1 Hn2].
  pose proof (Hf Rate) as [Hr1 Hr2].
  unfold same_other_slots in Ho.
  repeat match goal with H : _ /\ _ |- _ => destruct H end.
  destruct st, st'; simpl in *. congruence.
Qed.

(** Unfold a completion down to the case analysis of its guard and of the
    outcome. *)
Ltac completion_cases c :=
  destruct c as [f [cur amt tok acc inst] o];
  unfold complete; cbn [fetcher closure outcome];
  destruct f; cbn [fetcher_body];
  unfold getInstitutions, getRecipientName, getRate;
  cbn [Watch.currency Watch.amount Watch.token Watch.accountIdentifier
       Watch.institution];
  repeat match goal with
  | |- context [match ?x with Some _ => _ | None => _ end] =>
      is_var x; destruct x
  end;
  repeat match goal with
  | |- context [if ?b then _ else _] => destruct b
  end;
  destruct o; cbn.

(** A completion leaves the slots of the other fetchers, and the slots no
    fetcher writes. *)
Lemma complete_frame (w : World) (c : Completion) :
  same_other_slots (home w) (home (complete w c))
  /\ forall g : Fetcher,
      g <> fetcher c -> same_slots g (home w) (home (complete w c)).
Proof.
  split.
  - completion_cases c; unfold same_other_slots; repeat split; reflexivity.
  - intros g Hg. revert Hg.
    completion_cases c; intros Hg; destruct g;
      try (exfalso; apply Hg; reflexivity);
      try apply same_slots_refl; split; reflexivity.
Qed.

(** What a completion writes to the slots of its fetcher does not depend
    on the rest of the state. *)
Lemma complete_own (w w' : World) (c : Completion) :
  same_slots (fetcher c) (home w) (home w') ->
  same_slots (fetcher c) (home (complete w c)) (home (complete w' c)).
Proof.
  completion_cases c; intros H; try exact H; split; reflexivity.
Qed.

Lemma Fetcher_eqb_eq (f g : Fetcher) : Fetcher_eqb f g = true <-> f = g.
Proof.
  split.
  - destruct f, g; simpl; intros H; try reflexivity; discriminate H.
  - intros ->. destruct g; reflexivity.
Qed.

(** The slots of a fetcher after a list of completions are those its own
    completions alone would leave. *)
Lemma complete_all_own (f : Fetcher) (cs : list Completion) :
  forall w w' : World,
    same_slots f (home w) (home w') ->
    same_slots f (home (complete_all cs w))
      (home (complete_all (completions_of f cs) w')).
Proof.
  induction cs as [| c cs IH]; intros w w' H; simpl.
  - exact H.
  - destruct (Fetcher_eqb (fetcher c) f) eqn:E; simpl.
    + apply Fetcher_eqb_eq in E. subst f.
      apply IH. apply complete_own. exact H.
    + apply IH.
      assert (Hne : f <> fetcher c).
      { intros ->. rewrite (proj2 (Fetcher_eqb_eq _ _) eq_refl) in E.
        discriminate E. }
      eapply same_slots_trans; [| exact H].
      apply same_slots_sym. apply complete_frame. exact Hne.
Qed.

Lemma complete_all_others (cs : list Completion) :
  forall w : World,
    same_other_slots (home w) (home (complete_all cs w)).
Proof.
  induction cs as [| c cs IH]; intros w; simpl.
  - apply same_other_slots_refl.
  - eapply same_other_slots_trans; [| apply IH ].
    apply complete_frame.
Qed.

(** C8: the completion of a fetcher writes only the two slots of that
    fetcher: it leaves the slots of the other two fetchers and every other
    slot of the state.  So the state after any number of completions
    depends on the order of the completions of each fetcher only: two
    interleavings of the same completions end in the same state. *)
Theorem fetchers_write_disjoint_slots :
  (forall (w : World) (c : Completion),
      same_other_slots (home w) (home (complete w c))
      /\ forall g : Fetcher,
          g <> fetcher c -> same_slots g (home w) (home (complete w c)))
  /\ (forall (cs cs' : list Completion) (w : World),
         (forall f : Fetcher, completions_of f cs = completions_of f cs') ->
         home (complete_all cs w) = home (complete_all cs' w)).
Proof.
  split.
  - exact complete_frame.
  - intros cs cs' w H. apply HomeState_ext.
    + eapply same_other_slots_trans.
      * apply same_other_slots_sym. apply complete_all_others.
      * apply complete_all_others.
    + intros f.
      eapply same_slots_trans.
      * apply (complete_all_own f cs w w). apply same_slots_refl.
      * rewrite (H f). apply same_slots_sym.
        apply (complete_all_own f cs' w w). apply same_slots_refl.
Qed.

Lemma fetchers_write_disjoint_slots_witness :
  let c := with_institution "GTBINGLA"
             (with_accountIdentifier "0123456789"
                (with_token "USDC"
                   (with_amount (JS.Number_of_bigint 100)
                      (with_currency "NGN" Watch.initial)))) in
  let institutions_done :=
    {| fetcher := Institutions; closure := c;
       outcome := ResolveInstitutions
                    [ {| code := "GTBINGLA"; name := "Guaranty Trust Bank" |} ]
    |} in
  let name_failed :=
    {| fetcher := RecipientName; closure := c;
       outcome := Reject (JS.MkError "Network Error") |} in
  let rate_done :=
    {| fetcher := Rate; closure := c;
       outcome := ResolveRate {| data := JS.Number_of_bigint 1500 |} |} in
  let w := {| home := initial_state; console := [] |} in
  home (complete_all [institutions_done; name_failed; rate_done] w)
  = home (complete_all [rate_done; name_failed; institutions_done] w).
Proof.
  intros c institutions_done name_failed rate_done w.
  apply (proj2 fetchers_write_disjoint_slots).
  intros f. destruct f; reflexivity.
Defined.

(* ================================================================== *)
(** ** The runtime: what the events send *)
(* ================================================================== *)

(** What [continue] leaves, read off where the body stops. *)
Lemma continue_spec (p : Async unit) (rt : Runtime) :
  now (continue p rt) = now rt
  /\ timers (continue p rt) = timers rt
  /\ world (continue p rt) = fst (run_sync p (world rt))
  /\ sent (continue p rt)
     = sent rt ++ match awaited (stops_at p) with
                  | Some request => [(now rt, request)]
                  | None => []
                  end
  /\ in_flight (continue p rt)
     = in_flight rt ++ match awaited (stops_at p) with
                       | Some _ => [(next_id rt, stops_at p)]
                       | None => []
                       end
  /\ unhandled (continue p rt)
     = unhandled rt ++ match stops_at p with
                       | Throw error => [error]
                       | _ => []
                       end.
Proof.
  unfold continue.
  pose proof (run_sync_stops_at p (world rt)) as H.
  destruct (run_sync p (world rt)) as [w rest]. simpl in H. subst rest.
  destruct (stops_at p); simpl; rewrite ?app_nil_r; repeat split; reflexivity.
Qed.

(** The request each fetcher waits for, when it waits. *)
Lemma awaited_getInstitutions (c : Watch.t) :
  awaited (stops_at (getInstitutions c))
  = match Watch.currency c with
    | Some currency =>
        if JS.falsy_string (Watch.currency c) then None
        else Some (fetchSupportedInstitutions currency)
    | None => None
    end.
Proof.
  unfold getInstitutions. destruct (Watch.currency c) as [s |]; simpl; auto.
  destruct (String.eqb s ""); reflexivity.
Qed.

Lemma awaited_getRecipientName (c : Watch.t) :
  awaited (stops_at (getRecipientName c))
  = match Watch.accountIdentifier c, Watch.institution c with
    | Some accountIdentifier, Some institution =>
        if JS.falsy_string (Watch.accountIdentifier c)
           || JS.falsy_string (Watch.institution c)
        then None
        else Some (fetchAccountName institution accountIdentifier)
    | _, _ => None
    end.
Proof.
  unfold getRecipientName.
  destruct (Watch.accountIdentifier c) as [a |]; simpl; auto.
  destruct (Watch.institution c) as [i |]; simpl; auto.
  match goal with |- context [if ?b then _ else _] => destruct b end;
    reflexivity.
Qed.

(** The request for the rate names the token ["USDT"], whatever token the
    form holds. *)
Lemma awaited_getRate (c : Watch.t) :
  awaited (stops_at (getRate c))
  = match Watch.currency c, Watch.amount c with
    | Some currency, Some amount =>
        if JS.falsy_string (Watch.currency c)
           || JS.falsy_number (Watch.amount c)
           || JS.falsy_string (Watch.token c)
        then None
        else Some (fetchRate "USDT" amount currency)
    | _, _ => None
    end.
Proof.
  unfold getRate.
  destruct (Watch.currency c) as [cur |]; simpl; auto.
  destruct (Watch.amount c) as [amt |]; simpl; auto.
  match goal with |- context [if ?b then _ else _] => destruct b end;
    reflexivity.
Qed.

Lemma fetcher_body_one_shot (f : Fetcher) (c : Watch.t) :
  one_shot (stops_at (fetcher_body f c)).
Proof.
  intros o rest H w. revert H.
  destruct c as [cur amt tok acc inst]. destruct f; cbn [fetcher_body];
    unfold getInstitutions, getRecipientName, getRate;
    cbn [Watch.currency Watch.amount Watch.token Watch.accountIdentifier
         Watch.institution];
    repeat match goal with
    | |- context [match ?x with Some _ => _ | None => _ end] =>
        is_var x; destruct x
    end;
    repeat match goal with
    | |- context [if ?b then _ else _] => destruct b
    end;
    cbn; try discriminate;
    destruct o; cbn; intros H; try discriminate H;
    injection H as <-; cbn; eexists; reflexivity.
Qed.

Lemma callback_sends_no_institutions_request (cb : Callback) :
  match awaited (stops_at (callback_body cb)) with
  | Some request => is_institutions_request request = false
  | None => True
  end.
Proof.
  destruct cb as [c | c]; cbn [callback_body].
  - rewrite awaited_getRecipientName.
    destruct (Watch.accountIdentifier c), (Watch.institution c); auto.
    destruct (_ || _); simpl; auto.
  - rewrite awaited_getRate.
    destruct (Watch.currency c), (Watch.amount c); auto.
    destruct (_ || _); simpl; auto.
Qed.

Lemma stops_at_not_thrown (f : Fetcher) (c : Watch.t) :
  match stops_at (fetcher_body f c) with
  | Throw _ => False
  | _ => True
  end.
Proof.
  destruct c as [cur amt tok acc inst]. destruct f; cbn [fetcher_body];
    unfold getInstitutions, getRecipientName, getRate;
    cbn [Watch.currency Watch.amount Watch.token Watch.accountIdentifier
         Watch.institution];
    repeat match goal with
    | |- context [match ?x with Some _ => _ | None => _ end] =>
        is_var x; destruct x
    end;
    repeat match goal with
    | |- context [if ?b then _ else _] => destruct b
    end;
    cbn; exact I.
Qed.

Lemma clearTimeout_keeps (id : option nat) (rt : Runtime) :
  now (clearTimeout id rt) = now rt
  /\ next_id (clearTimeout id rt) = next_id rt
  /\ in_flight (clearTimeout id rt) = in_flight rt
  /\ sent (clearTimeout id rt) = sent rt
  /\ unhandled (clearTimeout id rt) = unhandled rt
  /\ world (clearTimeout id rt) = world rt.
Proof. destruct id; repeat split; reflexivity. Qed.

Lemma clearTimeout_now id rt : now (clearTimeout id rt) = now rt.
Proof. apply clearTimeout_keeps. Qed.

Lemma clearTimeout_in_flight id rt :
  in_flight (clearTimeout id rt) = in_flight rt.
Proof. apply clearTimeout_keeps. Qed.

Lemma clearTimeout_sent id rt : sent (clearTimeout id rt) = sent rt.
Proof. apply clearTimeout_keeps. Qed.

Lemma clearTimeout_unhandled id rt :
  unhandled (clearTimeout id rt) = unhandled rt.
Proof. apply clearTimeout_keeps. Qed.

Lemma continue_now p rt : now (continue p rt) = now rt.
Proof. apply continue_spec. Qed.

Lemma continue_timers p rt : timers (continue p rt) = timers rt.
Proof. apply continue_spec. Qed.

Lemma continue_sent p rt :
  sent (continue p rt)
  = sent rt ++ match awaited (stops_at p) with
               | Some request => [(now rt, request)]
               | None => []
               end.
Proof. apply continue_spec. Qed.

(** A call of a fetcher puts at most its own suspended body in flight, and
    rejects nothing. *)
Lemma continue_fetcher_in_flight (f : Fetcher) (c : Watch.t) (rt : Runtime) :
  exists extra,
    in_flight (continue (fetcher_body f c) rt) = in_flight rt ++ extra
    /\ Forall (fun entry => fetcher_call (snd entry)) extra.
Proof.
  destruct (continue_spec (fetcher_body f c) rt) as (_ & _ & _ & _ & H & _).
  rewrite H. eexists; split; [ reflexivity |].
  destruct (awaited (stops_at (fetcher_body f c))); constructor;
    [ exists f, c; reflexivity | constructor ].
Qed.

Lemma continue_fetcher_unhandled (f : Fetcher) (c : Watch.t) (rt : Runtime) :
  unhandled (continue (fetcher_body f c) rt) = unhandled rt.
Proof.
  destruct (continue_spec (fetcher_body f c) rt) as (_ & _ & _ & _ & _ & H).
  rewrite H. pose proof (stops_at_not_thrown f c) as Hn.
  destruct (stops_at (fetcher_body f c)); try contradiction;
    apply app_nil_r.
Qed.

Create Rewrite HintDb runtime.

#[local] Hint Rewrite clearTimeout_now clearTimeout_in_flight
  clearTimeout_sent clearTimeout_unhandled continue_now continue_timers
  continue_sent : runtime.

(** A render sends at most the request of [getInstitutions], and only when
    the currency changed; it puts only bodies of the fetchers in flight. *)
Lemma rerender_spec (w' : Watch.t) (i : Instance) :
  let rt := runtime i in
  let rt' := runtime (rerender w' i) in
  watched (rerender w' i) = w'
  /\ now rt' = now rt
  /\ sent rt'
     = sent rt ++
       (if institutions_deps_changed (watched i) w'
        then match awaited (stops_at (getInstitutions w')) with
             | Some request => [(now rt, request)]
             | None => []
             end
        else [])
  /\ (exists extra,
         in_flight rt' = in_flight rt ++ extra
         /\ Forall (fun entry => fetcher_call (snd entry)) extra)
  /\ unhandled rt' = unhandled rt.
Proof.
  unfold rerender, recipient_name_effect, rate_effect, institutions_effect,
    setTimeout.
  destruct (recipient_name_deps_changed (watched i) w'),
    (rate_deps_changed (watched i) w'),
    (institutions_deps_changed (watched i) w'); cbn.
  all: change (getInstitutions w') with (fetcher_body Institutions w').
  all: rewrite ?continue_fetcher_unhandled; autorewrite with runtime.
  all: rewrite ?app_nil_r.
  all: repeat split; try reflexivity.
  all: try (exists []; rewrite app_nil_r; split; [ reflexivity | constructor ]).
  all: try match goal with
       | |- context [continue (fetcher_body ?f ?c) ?r] =>
           destruct (continue_fetcher_in_flight f c r) as (extra & He & Hf);
           exists extra; rewrite He; autorewrite with runtime;
           split; [ reflexivity | exact Hf ]
       end.
Qed.

(** Timers that fire send requests for recipient names and rates only. *)
Lemma fire_all_spec (ts : list Timer) :
  forall rt : Runtime,
    let rt' := fold_left fire ts rt in
    filter (fun entry => is_institutions_request (snd entry)) (sent rt')
    = filter (fun entry => is_institutions_request (snd entry)) (sent rt)
    /\ (exists extra,
           in_flight rt' = in_flight rt ++ extra
           /\ Forall (fun entry => fetcher_call (snd entry)) extra)
    /\ unhandled rt' = unhandled rt.
Proof.
  induction ts as [| t ts IH]; intros rt; simpl.
  - repeat split. exists []. rewrite app_nil_r. split; [ reflexivity | constructor ].
  - destruct (IH (fire rt t)) as (Hs & (extra & Hi & Hf) & Hu).
    assert (Hbody : exists f c, callback_body (callback t) = fetcher_body f c).
    { destruct (callback t) as [c | c];
        [ exists RecipientName, c | exists Rate, c ]; reflexivity. }
    destruct Hbody as (f & c & Hbody).
    split; [| split].
    + rewrite Hs. unfold fire. rewrite continue_sent, filter_app.
      cbn [sent at_time].
      pose proof (callback_sends_no_institutions_request (callback t)) as Hk.
      destruct (awaited (stops_at (callback_body (callback t)))); simpl.
      * rewrite Hk. apply app_nil_r.
      * apply app_nil_r.
    + unfold fire in Hi |- *. rewrite Hbody in Hi |- *.
      destruct (continue_fetcher_in_flight f c
                  (at_time (Nat.max (now rt) (due t)) rt))
        as (extra0 & Hi0 & Hf0).
      exists (extra0 ++ extra). rewrite Hi, Hi0. cbn [in_flight at_time].
      rewrite <- app_assoc. split; [ reflexivity |].
      apply Forall_app. split; assumption.
    + rewrite Hu. unfold fire. rewrite Hbody.
      rewrite continue_fetcher_unhandled. reflexivity.
Qed.

Lemma elapse_spec (ms : nat) (rt : Runtime) :
  now (elapse ms rt) = now rt + ms
  /\ filter (fun entry => is_institutions_request (snd entry))
       (sent (elapse ms rt))
     = filter (fun entry => is_institutions_request (snd entry)) (sent rt)
  /\ (exists extra,
         in_flight (elapse ms rt) = in_flight rt ++ extra
         /\ Forall (fun entry => fetcher_call (snd entry)) extra)
  /\ unhandled (elapse ms rt) = unhandled rt.
Proof.
  unfold elapse. cbn [now sent in_flight unhandled at_time].
  split; [ reflexivity |].
  apply (fire_all_spec (filter (is_due (now rt + ms)) (timers rt))
           (with_timers
              (filter (fun t => negb (is_due (now rt + ms) t)) (timers rt))
              rt)).
Qed.

(** A settlement sends nothing and rejects nothing, as long as the bodies
    in flight are those of the fetchers. *)
Lemma settle_spec (id : nat) (o : Outcome) (rt : Runtime) :
  Forall (fun entry => fetcher_call (snd entry)) (in_flight rt) ->
  now (settle id o rt) = now rt
  /\ sent (settle id o rt) = sent rt
  /\ Forall (fun entry => fetcher_call (snd entry)) (in_flight (settle id o rt))
  /\ unhandled (settle id o rt) = unhandled rt.
Proof.
  intros Hall. unfold settle.
  destruct (find (fun entry => fst entry =? id) (in_flight rt))
    as [[n p] |] eqn:Efind; [| repeat split; assumption ].
  apply find_some in Efind. destruct Efind as [Hin _].
  destruct (resume_with p o) as [rest |] eqn:Eres; [| repeat split; assumption ].
  rewrite Forall_forall in Hall. pose proof (Hall _ Hin) as Hcall.
  simpl in Hcall. destruct Hcall as (f & c & ->).
  destruct (fetcher_body_one_shot f c o Eres (world rt)) as [w' Hrun].
  unfold continue. cbn [world]. rewrite Hrun. cbn.
  repeat split.
  rewrite Forall_forall. intros entry He.
  apply filter_In in He. apply Hall. apply He.
Qed.

(** In the runtime, the settlement of the call of a fetcher changes the
    world as [complete] does. *)
Lemma settle_completes (id : nat) (o : Outcome) (rt : Runtime)
  (f : Fetcher) (c : Watch.t) :
  find (fun entry => fst entry =? id) (in_flight rt)
  = Some (id, stops_at (fetcher_body f c)) ->
  world (settle id o rt)
  = complete (world rt) {| fetcher := f; closure := c; outcome := o |}.
Proof.
  intros Hfind. unfold settle, complete. rewrite Hfind.
  cbn [fetcher closure outcome].
  destruct (resume_with (stops_at (fetcher_body f c)) o) as [rest |];
    [| reflexivity ].
  destruct (continue_spec rest
              {| now := now rt;
                 next_id := next_id rt;
                 timers := timers rt;
                 in_flight :=
                   filter (fun entry => negb (fst entry =? id)) (in_flight rt);
                 sent := sent rt;
                 unhandled := unhandled rt;
                 world := world rt |}) as (_ & _ & Hw & _).
  exact Hw.
Qed.

Lemma step_settled_locally (i : Instance) (ev : Event) :
  settled_locally i -> settled_locally (step i ev).
Proof.
  intros [Hall Hun]. unfold settled_locally.
  destruct ev as [w' | ms | id o]; cbn [step runtime].
  - destruct (rerender_spec w' i) as (_ & _ & _ & (extra & Hi & Hf) & Hu).
    cbv zeta in Hi, Hu. rewrite Hi, Hu. split; [| exact Hun ].
    apply Forall_app. split; assumption.
  - destruct (elapse_spec ms (runtime i)) as (_ & _ & (extra & Hi & Hf) & Hu).
    rewrite Hi, Hu. split; [| exact Hun ].
    apply Forall_app. split; assumption.
  - destruct (@settle_spec id o (runtime i) Hall) as (_ & _ & Hf & Hu).
    rewrite Hu. split; assumption.
Qed.

Lemma mount_settled_locally : settled_locally mount.
Proof. split; [ constructor | reflexivity ]. Qed.

Lemma run_settled_locally (events : list Event) :
  forall i : Instance, settled_locally i -> settled_locally (run events i).
Proof.
  induction events as [| ev events IH]; intros i H; simpl.
  - exact H.
  - apply IH. apply step_settled_locally. exact H.
Qed.

(** No rejection of a fetch ever goes unhandled. *)
Lemma no_unhandled_rejection (events : list Event) :
  unhandled (runtime (run events mount)) = [].
Proof. apply (run_settled_locally events mount_settled_locally). Qed.

Lemma run_institutions_requests (events : list Event) :
  forall i : Instance,
    settled_locally i ->
    requests_sent is_institutions_request (run events i)
    = requests_sent is_institutions_request i
      ++ currency_changes (watched i) (now (runtime i)) events.
Proof.
  unfold requests_sent.
  induction events as [| ev events IH]; intros i Hi; cbn [run fold_left].
  - simpl. symmetry. apply app_nil_r.
  - fold (run events (step i ev)).
    rewrite (IH (step i ev) (@step_settled_locally i ev Hi)).
    destruct ev as [w' | ms | id o]; cbn [step runtime watched currency_changes].
    + destruct (rerender_spec w' i) as (Hw & Hn & Hs & _).
      cbv zeta in Hn, Hs. rewrite Hw, Hn, Hs, filter_app, <- app_assoc.
      f_equal. rewrite awaited_getInstitutions.
      destruct (Watch.currency w') as [currency |];
        destruct (institutions_deps_changed (watched i) w'); simpl;
        try reflexivity.
      destruct (String.eqb currency ""); reflexivity.
    + destruct (elapse_spec ms (runtime i)) as (Hn & Hs & _).
      rewrite Hn, Hs. reflexivity.
    + destruct Hi as [Hall _].
      destruct (@settle_spec id o (runtime i) Hall) as (Hn & Hs & _).
      rewrite Hn, Hs. reflexivity.
Qed.

(** C5, as the code has it: the effect on [[currency]] sets no timer, and
    every change of the currency to a non-empty value sends one request for
    the institutions at the time of the change: the requests sent over any
    events are exactly those changes, however close they are. *)
Theorem institutions_fetch_on_every_change :
  (forall (w : Watch.t) (rt : Runtime),
      timers (institutions_effect w rt) = timers rt)
  /\ (forall events : list Event,
         requests_sent is_institutions_request (run events mount)
         = currency_changes Watch.initial 0 events).
Proof.
  split.
  - intros w rt. apply continue_timers.
  - intros events.
    apply (run_institutions_requests events mount_settled_locally).
Qed.

(** C5, as stated, fails: two changes of the currency 10 ms apart send
    two requests for institutions, at the times of the changes, while only
    one window of 1000 ms without a change has passed. *)
Lemma institutions_fetch_is_not_debounced :
  let events :=
    [ FormChange (with_currency "NGN" Watch.initial);
      Elapse 10;
      FormChange (with_currency "KES" Watch.initial);
      Elapse 1000 ] in
  requests_sent is_institutions_request (run events mount)
  = [ (0, fetchSupportedInstitutions "NGN");
      (10, fetchSupportedInstitutions "KES") ]
  /\ quiescent_windows institutions_deps_changed Watch.initial 0 events = 1
  /\ ~ (List.length (requests_sent is_institutions_request (run events mount))
        <= quiescent_windows institutions_deps_changed Watch.initial 0 events).
Proof.
  split; [ reflexivity |]. split; [ reflexivity |].
  vm_compute. lia.
Qed.

(** C4, on the code: with the token USDC selected, the amount 100 and the
    currency NGN, the request that leaves after 1000 ms carries the amount
    and the currency of the form, and the token ["USDT"]. *)
Theorem rate_request_names_USDT :
  let w := with_token "USDC"
             (with_amount (JS.Number_of_bigint 100)
                (with_currency "NGN" Watch.initial)) in
  Watch.token w = Some "USDC"
  /\ requests_sent is_rate_request (run [FormChange w; Elapse 1000] mount)
     = [ (1000, fetchRate "USDT" (JS.Number_of_bigint 100) "NGN") ].
Proof. split; reflexivity. Qed.

(** C6, on the code: the account identifier is entered first, then, after
    the timer of that change has fired without a request (no institution
    yet), the institution is chosen.  Both are present now, but the effect
    depends on [[accountIdentifier]] alone: no timer is set, and no request
    for the recipient name leaves, however long one waits.  And when the
    institution changes while the timer of an account identifier is
    pending, the request leaves with the institution of the earlier
    render. *)
Theorem institution_change_schedules_no_fetch :
  let w1 := with_accountIdentifier "0123456789" Watch.initial in
  let w2 := with_institution "GTBINGLA" w1 in
  let i := run [FormChange w1; Elapse 1000; FormChange w2] mount in
  let w3 := with_accountIdentifier "0123456789"
              (with_institution "ABNGNGLA" Watch.initial) in
  let w4 := with_institution "GTBINGLA" w3 in
  (Watch.accountIdentifier w2 = Some "0123456789"
   /\ Watch.institution w2 = Some "GTBINGLA"
   /\ timers (runtime i) = []
   /\ forall ms : nat,
       requests_sent is_account_name_request (run [Elapse ms] i) = [])
  /\ requests_sent is_account_name_request
       (run [FormChange w3; Elapse 500; FormChange w4; Elapse 500] mount)
     = [ (1000, fetchAccountName "ABNGNGLA" "0123456789") ].
Proof.
  intros w1 w2 i w3 w4. split; [| reflexivity ].
  split; [ reflexivity | split; [ reflexivity | split; [ reflexivity |] ] ].
  intros ms. reflexivity.
Qed.

(* ================================================================== *)
(** ** The runtime: the debounce *)
(* ================================================================== *)

Lemma continue_next_id_le p rt : next_id rt <= next_id (continue p rt).
Proof.
  unfold continue. destruct (run_sync p (world rt)) as [w rest].
  destruct rest; cbn; lia.
Qed.

Lemma fire_timers (rt : Runtime) (t : Timer) : timers (fire rt t) = timers rt.
Proof. unfold fire. rewrite continue_timers. reflexivity. Qed.

Lemma fire_all_timers (ts : list Timer) :
  forall rt : Runtime, timers (fold_left fire ts rt) = timers rt.
Proof.
  induction ts as [| t ts IH]; intros rt; simpl; [ reflexivity |].
  rewrite IH. apply fire_timers.
Qed.

Lemma fire_all_next_id (ts : list Timer) :
  forall rt : Runtime, next_id rt <= next_id (fold_left fire ts rt).
Proof.
  induction ts as [| t ts IH]; intros rt; simpl; [ lia |].
  eapply Nat.le_trans; [| apply IH ].
  unfold fire. eapply Nat.le_trans; [| apply continue_next_id_le ].
  reflexivity.
Qed.

Lemma elapse_timers (ms : nat) (rt : Runtime) :
  timers (elapse ms rt)
  = filter (fun t => negb (is_due (now rt + ms) t)) (timers rt).
Proof.
  unfold elapse. cbn [timers at_time]. rewrite fire_all_timers. reflexivity.
Qed.

Lemma elapse_next_id (ms : nat) (rt : Runtime) :
  next_id rt <= next_id (elapse ms rt).
Proof.
  unfold elapse. cbn [next_id at_time].
  eapply Nat.le_trans; [| apply fire_all_next_id ]. reflexivity.
Qed.

Lemma settle_timers (id : nat) (o : Outcome) (rt : Runtime) :
  timers (settle id o rt) = timers rt
  /\ next_id rt <= next_id (settle id o rt).
Proof.
  unfold settle.
  destruct (find _ (in_flight rt)) as [[n p] |]; [| split; auto ].
  destruct (resume_with p o) as [rest |]; [| split; auto ].
  split.
  - rewrite continue_timers. reflexivity.
  - eapply Nat.le_trans; [| apply continue_next_id_le ]. reflexivity.
Qed.

(** The request a timer sends, if any, belongs to the fetcher it calls. *)
Lemma callback_request (cb : Callback) :
  match awaited (stops_at (callback_body cb)) with
  | Some request => request_fetcher request = callback_fetcher cb
  | None => True
  end.
Proof.
  destruct cb as [c | c]; cbn [callback_body callback_fetcher].
  - rewrite awaited_getRecipientName.
    destruct (Watch.accountIdentifier c), (Watch.institution c); auto.
    destruct (_ || _); simpl; auto.
  - rewrite awaited_getRate.
    destruct (Watch.currency c), (Watch.amount c); auto.
    destruct (_ || _); simpl; auto.
Qed.

(** The timers that fire send at most one request each, for their own
    fetcher. *)
Lemma fire_all_sent (f : Fetcher) (ts : list Timer) :
  forall rt : Runtime,
    List.length
      (filter (fun entry => is_request_of f (snd entry))
         (sent (fold_left fire ts rt)))
    <= List.length
         (filter (fun entry => is_request_of f (snd entry)) (sent rt))
       + List.length (filter (is_timer_of f) ts).
Proof.
  induction ts as [| t ts IH]; intros rt; cbn [fold_left filter].
  - simpl. lia.
  - eapply Nat.le_trans; [ apply IH |].
    unfold fire at 1. rewrite continue_sent, filter_app, length_app.
    cbn [sent at_time].
    pose proof (callback_request (callback t)) as Hk.
    unfold is_timer_of at 2.
    destruct (awaited (stops_at (callback_body (callback t)))) as [r |];
      cbn [filter snd List.length].
    + unfold is_request_of at 2. rewrite Hk.
      destruct (Fetcher_eqb (callback_fetcher (callback t)) f);
        cbn [List.length]; lia.
    + destruct (Fetcher_eqb (callback_fetcher (callback t)) f);
        cbn [List.length]; lia.
Qed.

Lemma clearTimeout_timers (id : nat) (rt : Runtime) :
  timers (clearTimeout (Some id) rt)
  = filter (fun t => negb (timeoutId t =? id)) (timers rt).
Proof. reflexivity. Qed.

Lemma clearTimeout_next_id id rt : next_id (clearTimeout id rt) = next_id rt.
Proof. apply clearTimeout_keeps. Qed.

(** Clearing the id of an effect removes the timers of that effect and no
    other. *)
Lemma filter_twice {A : Type} (f g : A -> bool) (l : list A) :
  filter f (filter g l) = filter (fun x => g x && f x) l.
Proof.
  induction l as [| x l IH]; simpl; [ reflexivity |].
  destruct (g x); simpl; [ destruct (f x) |]; rewrite IH; reflexivity.
Qed.

Lemma filter_all_true {A : Type} (l : list A) :
  filter (fun _ => true) l = l.
Proof. induction l as [| x l IH]; simpl; congruence. Qed.

Lemma owned_id (r q : nat) (t : Timer) :
  r <> q ->
  timeoutId t = match callback_fetcher (callback t) with
                | Rate => q
                | _ => r
                end ->
  (timeoutId t =? r) = is_timer_of RecipientName t
  /\ (timeoutId t =? q) = is_timer_of Rate t.
Proof.
  intros Hrq ->. unfold is_timer_of.
  destruct (callback t) as [c | c]; cbn [callback_fetcher Fetcher_eqb];
    rewrite Nat.eqb_refl; split; try reflexivity; apply Nat.eqb_neq; auto.
Qed.

(** The timers after a render: those of an effect whose dependencies
    changed are replaced by a new one, due in 1000 ms. *)
Lemma rerender_timers (w' : Watch.t) (i : Instance) :
  timers_owned i ->
  let cR := recipient_name_deps_changed (watched i) w' in
  let cT := rate_deps_changed (watched i) w' in
  exists n : nat,
    next_id (runtime i) <= n
    /\ timers (runtime (rerender w' i))
       = filter (fun t => negb (cR && is_timer_of RecipientName t)
                          && negb (cT && is_timer_of Rate t))
           (timers (runtime i))
         ++ (if cR
             then [ {| timeoutId := n;
                       due := now (runtime i) + 1000;
                       callback := call_getRecipientName w' |} ]
             else [])
         ++ (if cT
             then [ {| timeoutId := n + (if cR then 1 else 0);
                       due := now (runtime i) + 1000;
                       callback := call_getRate w' |} ]
             else [])
    /\ recipient_name_timeout (rerender w' i)
       = (if cR then Some n else recipient_name_timeout i)
    /\ rate_timeout (rerender w' i)
       = (if cT then Some (n + (if cR then 1 else 0)) else rate_timeout i)
    /\ next_id (runtime (rerender w' i))
       = n + (if cR then 1 else 0) + (if cT then 1 else 0).
Proof.
  intros (r & q & Hr & Hq & Hrq & Hrn & Hqn & Hown) cR cT.
  unfold rerender, recipient_name_effect, rate_effect, institutions_effect.
  fold cR cT. rewrite Hr, Hq. cbv zeta.
  set (rt1 := if cR then clearTimeout (Some r) (runtime i) else runtime i).
  set (rt2 := if cT then clearTimeout (Some q) rt1 else rt1).
  set (rt3 := if institutions_deps_changed (watched i) w'
              then continue (getInstitutions w') rt2 else rt2).
  assert (H2 : timers rt2
               = filter (fun t => negb (cR && is_timer_of RecipientName t)
                                  && negb (cT && is_timer_of Rate t))
                   (timers (runtime i))
               /\ now rt2 = now (runtime i)
               /\ next_id rt2 = next_id (runtime i)).
  { subst rt2 rt1. destruct cR, cT; cbn [andb negb];
      rewrite ?clearTimeout_timers, ?clearTimeout_now, ?clearTimeout_next_id,
        ?filter_twice; repeat split.
    all: try (apply filter_ext_in; intros t Ht;
              destruct (owned_id t Hrq (Hown t Ht)) as [E1 E2];
              rewrite ?E1, ?E2, ?andb_true_r; reflexivity).
    symmetry. apply filter_all_true. }
  destruct H2 as (Ht2 & Hn2 & Hi2).
  assert (H3 : timers rt3 = timers rt2 /\ now rt3 = now rt2
               /\ next_id rt2 <= next_id rt3).
  { subst rt3. destruct (institutions_deps_changed (watched i) w').
    - rewrite continue_timers, continue_now. repeat split.
      apply continue_next_id_le.
    - repeat split; reflexivity. }
  destruct H3 as (Ht3 & Hn3 & Hi3).
  exists (next_id rt3). split; [ lia |].
  rewrite <- Ht2, <- Hn2, <- Ht3, <- Hn3.
  clearbody rt3. clear rt1 rt2 Ht2 Hn2 Hi2 Hi3 Ht3 Hn3.
  unfold setTimeout. destruct cR, cT; cbn.
  all: rewrite ?Nat.add_0_r, ?Nat.add_1_r, ?app_nil_r, <- ?app_assoc.
  all: repeat split; reflexivity.
Qed.

Lemma mount_timers_owned : timers_owned mount.
Proof.
  exists 0, 1.
  split; [ reflexivity |]. split; [ reflexivity |].
  split; [ discriminate |]. split; [ cbn; lia |]. split; [ cbn; lia |].
  intros t [<- | [<- | []]]; reflexivity.
Qed.

Lemma step_timers_owned (i : Instance) (ev : Event) :
  timers_owned i -> timers_owned (step i ev).
Proof.
  intros Hown. pose proof Hown as (r & q & Hr & Hq & Hrq & Hrn & Hqn & Hid).
  destruct ev as [w' | ms | id o]; cbn [step].
  - destruct (rerender_timers w' Hown) as (n & Hn & Ht & Hr' & Hq' & Hnext).
    cbv zeta in Ht, Hr', Hq', Hnext.
    exists (if recipient_name_deps_changed (watched i) w' then n else r),
           (if rate_deps_changed (watched i) w'
            then n + (if recipient_name_deps_changed (watched i) w'
                      then 1 else 0)
            else q).
    rewrite Hr', Hq', Hnext, Ht, Hr, Hq.
    destruct (recipient_name_deps_changed (watched i) w'),
      (rate_deps_changed (watched i) w');
      (split; [ reflexivity |]); (split; [ reflexivity |]);
      (split; [ lia |]); (split; [ lia |]); (split; [ lia |]);
      intros t Ht'; rewrite ?app_nil_r in Ht';
      repeat (apply in_app_or in Ht'; destruct Ht' as [Ht' | Ht']);
      try (apply filter_In in Ht'; destruct Ht' as [Hin Hp];
           pose proof (Hid t Hin) as Ht0;
           unfold is_timer_of in Hp; revert Hp Ht0;
           destruct (callback t) as [c | c]; cbn; intros Hp Ht0;
           solve [ discriminate Hp | exact Ht0 ]);
      try (destruct Ht' as [<- | []]; cbn; lia);
      try (destruct Ht').
  - exists r, q. cbn [runtime recipient_name_timeout rate_timeout].
    pose proof (elapse_next_id ms (runtime i)).
    repeat split; try assumption; try lia.
    intros t Ht. rewrite elapse_timers in Ht.
    apply filter_In in Ht. apply Hid. apply Ht.
  - exists r, q. cbn [runtime recipient_name_timeout rate_timeout].
    destruct (settle_timers id o (runtime i)) as [Ht Hn].
    repeat split; try assumption; try lia.
    intros t Hin. rewrite Ht in Hin. apply Hid. exact Hin.
Qed.

Lemma mount_debounce_state (f : Fetcher) :
  f <> Institutions -> debounce_state f mount 0.
Proof.
  intros Hf. right. destruct f; try contradiction; cbn.
  - eexists. split; [ reflexivity |]. cbn. lia.
  - eexists. split; [ reflexivity |]. cbn. lia.
Qed.

Lemma filter_none {A : Type} (f : A -> bool) (l : list A) :
  (forall x, f x = false) -> filter f l = [].
Proof.
  intros H. induction l as [| x l IH]; simpl; [| rewrite H ]; auto.
Qed.

Lemma filter_swap {A : Type} (f g : A -> bool) (l : list A) :
  filter f (filter g l) = filter g (filter f l).
Proof.
  rewrite !filter_twice. apply filter_ext. intros x. apply andb_comm.
Qed.

(** A render and the debounce of [f]: a change of its dependencies starts
    a new window with a new timer; otherwise nothing changes for [f]. *)
Lemma rerender_debounce (f : Fetcher) (w' : Watch.t) (i : Instance)
  (quiet : nat) :
  f <> Institutions ->
  timers_owned i ->
  debounce_state f i quiet ->
  requests_of f (rerender w' i) = requests_of f i
  /\ if deps_changed f (watched i) w'
     then debounce_state f (rerender w' i) 0
     else debounce_state f (rerender w' i) quiet
          /\ window_used f (rerender w' i) = window_used f i.
Proof.
  intros Hf Hown Hstate. split.
  - unfold requests_of.
    destruct (rerender_spec w' i) as (_ & _ & Hs & _). cbv zeta in Hs.
    rewrite Hs, filter_app.
    rewrite awaited_getInstitutions.
    destruct (institutions_deps_changed (watched i) w');
      [| apply app_nil_r ].
    destruct (Watch.currency w') as [c |]; [| apply app_nil_r ].
    destruct (JS.falsy_string (Some c)); [ apply app_nil_r |].
    destruct f; try contradiction; apply app_nil_r.
  - destruct (rerender_timers w' Hown) as (n & Hn & Ht & _).
    cbv zeta in Ht.
    destruct (rerender_spec w' i) as (_ & Hnow & _). cbv zeta in Hnow.
    unfold debounce_state, window_used. rewrite Ht, Hnow.
    rewrite !filter_app, filter_twice.
    destruct f; try contradiction; cbn [deps_changed];
      destruct (recipient_name_deps_changed (watched i) w'),
        (rate_deps_changed (watched i) w').
    all: try (right; eexists; split;
              [ rewrite filter_none
                  by (intros t; unfold is_timer_of;
                      destruct (callback t); reflexivity);
                reflexivity
              | cbn; lia ]).
    all: match goal with
         | H : debounce_state ?g _ _ |- _ =>
             replace (filter _ (timers (runtime i)))
               with (filter (is_timer_of g) (timers (runtime i)))
               by (apply filter_ext; intros t; unfold is_timer_of;
                   destruct (callback t); reflexivity)
         end.
    all: cbn [filter app]; rewrite ?app_nil_r.
    all: split; [ exact Hstate | reflexivity ].
Qed.

(** Time passing and the debounce of [f]: the timer fires once the 1000 ms
    are over, and sends at most one request. *)
Lemma elapse_debounce (f : Fetcher) (ms : nat) (i : Instance) (quiet : nat) :
  debounce_state f i quiet ->
  debounce_state f (step i (Elapse ms)) (quiet + ms)
  /\ List.length (requests_of f (step i (Elapse ms))) + window_used f i
     <= List.length (requests_of f i) + window_used f (step i (Elapse ms)).
Proof.
  intros Hstate.
  assert (Hsent :
            List.length (requests_of f (step i (Elapse ms)))
            <= List.length (requests_of f i)
               + List.length
                   (filter (is_due (now (runtime i) + ms))
                      (filter (is_timer_of f) (timers (runtime i))))).
  { unfold requests_of. cbn [step runtime]. unfold elapse.
    cbn [sent at_time]. rewrite filter_swap.
    apply (fire_all_sent f
             (filter (is_due (now (runtime i) + ms)) (timers (runtime i)))
             (with_timers
                (filter (fun t => negb (is_due (now (runtime i) + ms) t))
                   (timers (runtime i)))
                (runtime i))). }
  assert (Hpending :
            filter (is_timer_of f) (timers (runtime (step i (Elapse ms))))
            = filter (fun t => negb (is_due (now (runtime i) + ms) t))
                (filter (is_timer_of f) (timers (runtime i)))).
  { cbn [step runtime]. rewrite elapse_timers. apply filter_swap. }
  assert (Hnow : now (runtime (step i (Elapse ms))) = now (runtime i) + ms)
    by reflexivity.
  unfold debounce_state, window_used in *. rewrite Hpending, Hnow.
  destruct Hstate as [[Hnone Hq] | (t & Hone & Hlt & Hdue)].
  - rewrite Hnone in *. cbn [filter List.length] in *.
    split; [ left; split; [ reflexivity | lia ] | lia ].
  - rewrite Hone in *. cbn [filter List.length] in *.
    unfold is_due in *. destruct (due t <=? now (runtime i) + ms) eqn:E;
      cbn [negb List.length] in *.
    + apply Nat.leb_le in E.
      split; [ left; split; [ reflexivity | lia ] | lia ].
    + apply Nat.leb_gt in E.
      split; [ right; exists t; repeat split; lia | lia ].
Qed.

Lemma settle_debounce (f : Fetcher) (id : nat) (o : Outcome) (i : Instance)
  (quiet : nat) :
  settled_locally i ->
  debounce_state f i quiet ->
  debounce_state f (step i (Settle id o)) quiet
  /\ requests_of f (step i (Settle id o)) = requests_of f i
  /\ window_used f (step i (Settle id o)) = window_used f i.
Proof.
  intros [Hall _] Hstate.
  destruct (@settle_spec id o (runtime i) Hall) as (Hn & Hs & _).
  destruct (settle_timers id o (runtime i)) as [Ht _].
  unfold debounce_state, window_used, requests_of in *.
  cbn [step runtime]. rewrite Ht, Hn, Hs. repeat split. exact Hstate.
Qed.

(** The debounce: over any events, a debounced fetcher sends at most one
    request for each window of 1000 ms in which its dependencies stay as
    they are. *)
Lemma run_debounced (f : Fetcher) (events : list Event) :
  f <> Institutions ->
  forall (i : Instance) (quiet : nat),
    timers_owned i -> settled_locally i -> debounce_state f i quiet ->
    List.length (requests_of f (run events i)) + window_used f i
    <= List.length (requests_of f i)
       + quiescent_windows (deps_changed f) (watched i) quiet events.
Proof.
  intros Hf.
  induction events as [| ev events IH]; intros i quiet Hown Hloc Hstate.
  - cbn [run fold_left quiescent_windows].
    unfold window_used. destruct Hstate as [[-> Hq] | (t & -> & _)].
    + apply Nat.leb_le in Hq. rewrite Hq. lia.
    + lia.
  - cbn [run fold_left]. fold (run events (step i ev)).
    pose proof (step_timers_owned ev Hown) as Hown'.
    pose proof (@step_settled_locally i ev Hloc) as Hloc'.
    destruct ev as [w' | ms | id o]; cbn [quiescent_windows].
    + destruct (@rerender_debounce f w' i quiet Hf Hown Hstate)
        as [Hsent Hnext].
      change (step i (FormChange w')) with (rerender w' i) in *.
      assert (Hw : watched (rerender w' i) = w') by apply rerender_spec.
      destruct (deps_changed f (watched i) w').
      * specialize (IH (rerender w' i) 0 Hown' Hloc' Hnext).
        rewrite Hw, Hsent in IH.
        assert (window_used f i <= (if 1000 <=? quiet then 1 else 0)).
        { unfold window_used. destruct Hstate as [[-> Hq] | (t & -> & _)].
          - apply Nat.leb_le in Hq. rewrite Hq. lia.
          - lia. }
        lia.
      * destruct Hnext as [Hnext Hused].
        specialize (IH (rerender w' i) quiet Hown' Hloc' Hnext).
        rewrite Hw, Hsent, Hused in IH. exact IH.
    + destruct (@elapse_debounce f ms i quiet Hstate) as [Hnext Hsent].
      specialize (IH (step i (Elapse ms)) (quiet + ms) Hown' Hloc' Hnext).
      change (watched (step i (Elapse ms))) with (watched i) in IH. lia.
    + destruct (@settle_debounce f id o i quiet Hloc Hstate)
        as (Hnext & Hsent & Hused).
      specialize (IH (step i (Settle id o)) quiet Hown' Hloc' Hnext).
      change (watched (step i (Settle id o))) with (watched i) in IH.
      rewrite Hsent, Hused in IH. exact IH.
Qed.

(** X1: the recipient name and the rate are debounced: whatever the events,
    the requests sent for each are at most as many as the windows of at
    least 1000 ms in which the dependencies of its effect stayed as they
    were ([accountIdentifier] for the name; [currency], [amount] and
    [token] for the rate). *)
Lemma debounced_fetchers (events : list Event) :
  List.length (requests_sent is_account_name_request (run events mount))
  <= quiescent_windows recipient_name_deps_changed Watch.initial 0 events
  /\ List.length (requests_sent is_rate_request (run events mount))
     <= quiescent_windows rate_deps_changed Watch.initial 0 events.
Proof.
  split.
  - pose proof (@run_debounced RecipientName events ltac:(discriminate)
                  mount 0 mount_timers_owned mount_settled_locally
                  (@mount_debounce_state RecipientName ltac:(discriminate)))
      as H.
    cbn [deps_changed] in H. unfold requests_of in H.
    unfold requests_sent.
    erewrite filter_ext; [ exact (Nat.le_trans _ _ _ (Nat.le_add_r _ _) H) |].
    intros [t r]. destruct r; reflexivity.
  - pose proof (@run_debounced Rate events ltac:(discriminate)
                  mount 0 mount_timers_owned mount_settled_locally
                  (@mount_debounce_state Rate ltac:(discriminate)))
      as H.
    cbn [deps_changed] in H. unfold requests_of in H.
    unfold requests_sent.
    erewrite filter_ext; [ exact (Nat.le_trans _ _ _ (Nat.le_add_r _ _) H) |].
    intros [t r]. destruct r; reflexivity.
Qed.

(** Typing the amount 1, 12, 123 with 300 ms between the keys sends one
    request for the rate, for 123, 1000 ms after the last key. *)
Example typing_an_amount :
  let form := with_token "USDT" (with_currency "NGN" Watch.initial) in
  let typed (n : Z) := FormChange (with_amount (JS.Number_of_bigint n) form) in
  requests_sent is_rate_request
    (run [ typed 1%Z; Elapse 300; typed 12%Z; Elapse 300; typed 123%Z;
           Elapse 1000 ] mount)
  = [ (1600, fetchRate "USDT" (JS.Number_of_bigint 123) "NGN") ].
Proof. reflexivity. Qed.

(* ================================================================== *)
(** ** The fetchers: failures *)
(* ================================================================== *)

(** C7: a request that fails is caught inside the function that sent it,
    which then ends normally.  For the recipient name the failure sets
    [recipientName] to the empty string and clears the loading flag, logs
    nothing and leaves every other slot; for the institutions and for the
    rate the error is logged and the whole state, [institutions] and [rate]
    included, is left as it was.  So whatever the events, no rejection is
    left unhandled in the runtime. *)
Theorem fetch_failures_are_caught (error : JS.Error) (w : World) :
  (forall (c : Watch.t) (accountIdentifier institution : string),
      Watch.accountIdentifier c = Some accountIdentifier ->
      Watch.institution c = Some institution ->
      accountIdentifier <> "" -> institution <> "" ->
      exists rest,
        resume_with (stops_at (getRecipientName c)) (Reject error) = Some rest
        /\ run_sync rest w
           = ({| home := setIsFetchingRecipientName false
                           (setRecipientName "" (home w));
                 console := console w |}, Return tt))
  /\ (forall (c : Watch.t) (currency : string),
         Watch.currency c = Some currency -> currency <> "" ->
         exists rest,
           resume_with (stops_at (getInstitutions c)) (Reject error) = Some rest
           /\ run_sync rest w
              = ({| home := home w; console := console w ++ [error] |},
                 Return tt))
  /\ (forall (c : Watch.t) (currency token : string) (amount : number),
         Watch.currency c = Some currency -> Watch.amount c = Some amount ->
         Watch.token c = Some token ->
         currency <> "" -> JS.falsy_number (Some amount) = false ->
         token <> "" ->
         exists rest,
           resume_with (stops_at (getRate c)) (Reject error) = Some rest
           /\ run_sync rest w
              = ({| home := home w; console := console w ++ [error] |},
                 Return tt))
  /\ (forall events : list Event,
         unhandled (runtime (run events mount)) = []).
Proof.
  split; [| split; [| split ] ].
  - intros c a i Ha Hi Hna Hni.
    unfold getRecipientName. pass_guard. simpl.
    eexists. split; reflexivity.
  - intros c cur Hc Hnc.
    unfold getInstitutions. pass_guard. simpl.
    eexists. split; reflexivity.
  - intros c cur tok amt Hc Ha Ht Hnc Hna Hnt.
    unfold getRate. pass_guard. simpl.
    eexists. split; reflexivity.
  - exact no_unhandled_rejection.
Qed.

Lemma fetch_failures_are_caught_witness :
  let w := {| home := initial_state; console := [] |} in
  let error := JS.MkError "Network Error" in
  let c := with_institution "GTBINGLA"
             (with_accountIdentifier "0123456789"
                (with_token "USDC"
                   (with_amount (JS.Number_of_bigint 100)
                      (with_currency "NGN" Watch.initial)))) in
  (exists rest,
      resume_with (stops_at (getRecipientName c)) (Reject error) = Some rest
      /\ run_sync rest w
         = ({| home := setIsFetchingRecipientName false
                         (setRecipientName "" (home w));
               console := console w |}, Return tt))
  /\ (exists rest,
         resume_with (stops_at (getInstitutions c)) (Reject error) = Some rest
         /\ run_sync rest w
            = ({| home := home w; console := console w ++ [error] |},
               Return tt))
  /\ (exists rest,
         resume_with (stops_at (getRate c)) (Reject error) = Some rest
         /\ run_sync rest w
            = ({| home := home w; console := console w ++ [error] |},
               Return tt)).
Proof.
  intros w error c.
  destruct (fetch_failures_are_caught error w) as [Hname [Hinst [Hrate _]]].
  split; [| split].
  - apply (Hname c "0123456789" "GTBINGLA");
      try reflexivity; discriminate.
  - apply (Hinst c "NGN"); try reflexivity; discriminate.
  - apply (Hrate c "NGN" "USDC" (JS.Number_of_bigint 100));
      try reflexivity; discriminate.
Defined.

(* ================================================================== *)
(** ** The runtime: what every run keeps *)
(* ================================================================== *)

Lemma same_net_clearTimeout (id : option nat) (rt : Runtime) :
  same_net rt (clearTimeout id rt).
Proof. destruct id; repeat split; reflexivity. Qed.

Lemma same_net_setTimeout (c : Callback) (delay : nat) (rt : Runtime) :
  same_net rt (fst (setTimeout c delay rt)).
Proof. repeat split; try reflexivity. cbn. lia. Qed.

Lemma same_net_at_time (t : nat) (rt : Runtime) : same_net rt (at_time t rt).
Proof. repeat split; reflexivity. Qed.

Lemma same_net_with_timers (ts : list Timer) (rt : Runtime) :
  same_net rt (with_timers ts rt).
Proof. repeat split; reflexivity. Qed.

Lemma callback_is_fetcher_body (cb : Callback) :
  exists (f : Fetcher) (c : Watch.t), callback_body cb = fetcher_body f c.
Proof.
  destruct cb as [c | c]; [ exists RecipientName, c | exists Rate, c ];
    reflexivity.
Qed.

(** A property of the runtime that does not look at the timers or the
    clock, and that calls and settlements of the fetchers keep, holds after
    every run of events. *)
Lemma run_invariant (P : Runtime -> Prop) :
  (forall rt rt' : Runtime, same_net rt rt' -> P rt -> P rt') ->
  (forall (rt : Runtime) (f : Fetcher) (c : Watch.t),
      P rt -> P (continue (fetcher_body f c) rt)) ->
  (forall (rt : Runtime) (id : nat) (o : Outcome),
      P rt -> P (settle id o rt)) ->
  forall (events : list Event) (i : Instance),
    P (runtime i) -> P (runtime (run events i)).
Proof.
  intros Hnet Hcall Hsettle.
  assert (Hfire : forall (ts : list Timer) (rt : Runtime),
             P rt -> P (fold_left fire ts rt)).
  { induction ts as [| t ts IH]; intros rt H; simpl; [ exact H |].
    apply IH. unfold fire.
    destruct (callback_is_fetcher_body (callback t)) as (f & c & ->).
    apply Hcall. eapply Hnet; [ apply same_net_at_time | exact H ]. }
  induction events as [| ev events IH]; intros i H; [ exact H |].
  cbn [run fold_left]. fold (run events (step i ev)). apply IH.
  destruct ev as [w' | ms | id o]; cbn [step runtime].
  - unfold rerender, recipient_name_effect, rate_effect, institutions_effect.
    cbv zeta.
    set (rt1 := if recipient_name_deps_changed (watched i) w'
                then clearTimeout (recipient_name_timeout i) (runtime i)
                else runtime i).
    assert (H1 : P rt1).
    { subst rt1. destruct (recipient_name_deps_changed (watched i) w');
        [ eapply Hnet; [ apply same_net_clearTimeout | exact H ] | exact H ]. }
    clearbody rt1.
    set (rt2 := if rate_deps_changed (watched i) w'
                then clearTimeout (rate_timeout i) rt1 else rt1).
    assert (H2 : P rt2).
    { subst rt2. destruct (rate_deps_changed (watched i) w');
        [ eapply Hnet; [ apply same_net_clearTimeout | exact H1 ] | exact H1 ]. }
    clearbody rt2.
    set (rt3 := if institutions_deps_changed (watched i) w'
                then continue (getInstitutions w') rt2 else rt2).
    assert (H3 : P rt3).
    { subst rt3. destruct (institutions_deps_changed (watched i) w');
        [ apply (Hcall rt2 Institutions w' H2) | exact H2 ]. }
    clearbody rt3.
    destruct (recipient_name_deps_changed (watched i) w'),
      (rate_deps_changed (watched i) w'); cbn [runtime fst snd].
    + eapply Hnet; [ apply same_net_setTimeout |].
      eapply Hnet; [ apply same_net_setTimeout | exact H3 ].
    + eapply Hnet; [ apply same_net_setTimeout | exact H3 ].
    + eapply Hnet; [ apply same_net_setTimeout | exact H3 ].
    + exact H3.
  - unfold elapse.
    eapply Hnet; [ apply same_net_at_time |].
    apply Hfire.
    eapply Hnet; [ apply same_net_with_timers | exact H ].
  - apply Hsettle. exact H.
Qed.

Lemma continue_next_id (p : Async unit) (rt : Runtime) :
  next_id (continue p rt)
  = match awaited (stops_at p) with
    | Some _ => S (next_id rt)
    | None => next_id rt
    end.
Proof.
  unfold continue.
  pose proof (run_sync_stops_at p (world rt)) as H.
  destruct (run_sync p (world rt)) as [w rest]. simpl in H. subst rest.
  destruct (stops_at p); reflexivity.
Qed.

(** Starting a fetcher raises its own loading flag at most: the slots of
    the other fetchers, the other slots and the console stay. *)
Lemma start_frame (f : Fetcher) (c : Watch.t) (w : World) :
  let w' := fst (run_sync (fetcher_body f c) w) in
  same_other_slots (home w) (home w')
  /\ (forall g : Fetcher, g <> f -> same_slots g (home w) (home w'))
  /\ console w' = console w.
Proof.
  destruct c as [cur amt tok acc inst].
  destruct f; cbn [fetcher_body];
    unfold getInstitutions, getRecipientName, getRate;
    cbn [Watch.currency Watch.amount Watch.token Watch.accountIdentifier
         Watch.institution];
    repeat match goal with
    | |- context [match ?x with Some _ => _ | None => _ end] =>
        is_var x; destruct x
    end;
    repeat match goal with
    | |- context [if ?b then _ else _] => destruct b
    end;
    cbn; (split; [ unfold same_other_slots; repeat split; reflexivity |]);
    (split; [| reflexivity ]);
    intros g Hg; destruct g; try (exfalso; apply Hg; reflexivity);
    split; reflexivity.
Qed.

Lemma NoDup_fst_unique {A B : Type} (l : list (A * B)) (a : A) (p q : B) :
  NoDup (map fst l) -> In (a, p) l -> In (a, q) l -> p = q.
Proof.
  induction l as [| [a' b'] l IH]; intros Hnd Hp Hq; [ destruct Hp |].
  cbn in Hnd. inversion Hnd as [| ? ? Hnotin Hnd']; subst.
  destruct Hp as [Hp | Hp], Hq as [Hq | Hq].
  - congruence.
  - injection Hp as -> ->. exfalso. apply Hnotin.
    change a with (fst (a, q)). apply in_map. exact Hq.
  - injection Hq as -> ->. exfalso. apply Hnotin.
    change a with (fst (a, p)). apply in_map. exact Hp.
  - apply IH; assumption.
Qed.

Lemma find_by_id (l : list (nat * Async unit)) (id : nat) (p : Async unit) :
  NoDup (map fst l) -> In (id, p) l ->
  find (fun entry => fst entry =? id) l = Some (id, p).
Proof.
  intros Hnd Hin.
  destruct (find (fun entry => fst entry =? id) l) as [[n q] |] eqn:E.
  - apply find_some in E. destruct E as [Hq Hn]. cbn in Hn.
    apply Nat.eqb_eq in Hn. subst n.
    rewrite (@NoDup_fst_unique _ _ l id p q Hnd Hin Hq). reflexivity.
  - exfalso. pose proof (find_none _ _ E _ Hin) as H. cbn in H.
    rewrite Nat.eqb_refl in H. discriminate H.
Qed.

(** What a settlement does in a runtime whose requests in flight are calls
    of the fetchers: nothing, or the completion of the call it names,
    which leaves the flight. *)
Lemma settle_cases (id : nat) (o : Outcome) (rt : Runtime) :
  Forall (fun entry => fetcher_call (snd entry)) (in_flight rt) ->
  settle id o rt = rt
  \/ exists (f : Fetcher) (c : Watch.t) (rest : Async unit),
      find (fun entry => fst entry =? id) (in_flight rt)
      = Some (id, stops_at (fetcher_body f c))
      /\ resume_with (stops_at (fetcher_body f c)) o = Some rest
      /\ in_flight (settle id o rt)
         = filter (fun entry => negb (fst entry =? id)) (in_flight rt)
      /\ world (settle id o rt)
         = complete (world rt) {| fetcher := f; closure := c; outcome := o |}
      /\ next_id (settle id o rt) = next_id rt
      /\ unhandled (settle id o rt) = unhandled rt
      /\ sent (settle id o rt) = sent rt.
Proof.
  intros Hall.
  destruct (find (fun entry => fst entry =? id) (in_flight rt))
    as [[n p] |] eqn:Efind.
  2: { left. unfold settle. rewrite Efind. reflexivity. }
  pose proof (find_some _ _ Efind) as [Hin Hn]. cbn in Hn.
  apply Nat.eqb_eq in Hn. subst n.
  rewrite Forall_forall in Hall.
  destruct (Hall _ Hin) as (f & c & Hp). cbn in Hp. subst p.
  destruct (resume_with (stops_at (fetcher_body f c)) o) as [rest |] eqn:Eres.
  2: { left. unfold settle. rewrite Efind, Eres. reflexivity. }
  right. exists f, c, rest. split; [ reflexivity |]. split; [ exact Eres |].
  pose proof (@settle_completes id o rt f c Efind) as Hw.
  destruct (fetcher_body_one_shot f c o Eres (world rt)) as [w' Hrun].
  unfold settle in *. rewrite Efind, Eres in *.
  unfold continue in *. cbn [world] in *. rewrite Hrun in *. cbn in *.
  repeat split. exact Hw.
Qed.

Lemma in_flight_ok_same_net (rt rt' : Runtime) :
  same_net rt rt' -> in_flight_ok rt -> in_flight_ok rt'.
Proof.
  intros (Hi & _ & _ & _ & Hn) (Hc & Hd & Hf). unfold in_flight_ok.
  rewrite Hi. repeat split; try assumption.
  eapply Forall_impl; [| exact Hf ]. cbn. intros; lia.
Qed.

Lemma in_flight_ok_continue (rt : Runtime) (f : Fetcher) (c : Watch.t) :
  in_flight_ok rt -> in_flight_ok (continue (fetcher_body f c) rt).
Proof.
  intros (Hc & Hd & Hf). unfold in_flight_ok.
  destruct (continue_spec (fetcher_body f c) rt) as (_ & _ & _ & _ & Hi & _).
  rewrite Hi, continue_next_id.
  destruct (awaited (stops_at (fetcher_body f c))).
  - rewrite map_app. cbn [map fst]. repeat split.
    + apply Forall_app. split; [ exact Hc |].
      constructor; [ exists f, c; reflexivity | constructor ].
    + apply NoDup_app; [ exact Hd | repeat constructor; intros [] | ].
      intros a Ha [<- | []].
      apply in_map_iff in Ha. destruct Ha as (e & He & Hin).
      rewrite Forall_forall in Hf. specialize (Hf e Hin). lia.
    + apply Forall_app. split.
      * eapply Forall_impl; [| exact Hf ]. cbn. intros; lia.
      * constructor; [ cbn; lia | constructor ].
  - rewrite app_nil_r. repeat split; assumption.
Qed.

Lemma in_flight_ok_settle (rt : Runtime) (id : nat) (o : Outcome) :
  in_flight_ok rt -> in_flight_ok (settle id o rt).
Proof.
  intros (Hc & Hd & Hf).
  destruct (@settle_cases id o rt Hc)
    as [-> | (f & c & rest & _ & _ & Hi & _ & Hn & _)];
    [ repeat split; assumption |].
  unfold in_flight_ok. rewrite Hi, Hn. repeat split.
  - rewrite Forall_forall in *. intros e He. apply filter_In in He.
    apply Hc. apply He.
  - clear - Hd. induction (in_flight rt) as [| e l IH]; cbn; [ constructor |].
    cbn in Hd. inversion Hd as [| ? ? Hnotin Hd']; subst.
    destruct (negb (fst e =? id)); cbn; [| apply IH; exact Hd' ].
    constructor; [| apply IH; exact Hd' ].
    intros Hin. apply Hnotin. apply in_map_iff in Hin.
    destruct Hin as (e' & He' & Hin'). apply filter_In in Hin'.
    apply in_map_iff. exists e'. split; [ exact He' | apply Hin' ].
  - rewrite Forall_forall in *. intros e He. apply filter_In in He.
    apply Hf. apply He.
Qed.

Lemma mount_in_flight_ok : in_flight_ok (runtime mount).
Proof. repeat split; constructor. Qed.

Lemma run_in_flight_ok (events : list Event) (i : Instance) :
  in_flight_ok (runtime i) -> in_flight_ok (runtime (run events i)).
Proof.
  apply (run_invariant in_flight_ok).
  - exact in_flight_ok_same_net.
  - exact in_flight_ok_continue.
  - exact in_flight_ok_settle.
Qed.

(** Unfold the body of a fetcher down to the case analysis of its guard. *)
Ltac fetcher_cases f c :=
  destruct c as [cur amt tok acc inst];
  destruct f; cbn [fetcher_body];
  unfold getInstitutions, getRecipientName, getRate;
  cbn [Watch.currency Watch.amount Watch.token Watch.accountIdentifier
       Watch.institution];
  repeat match goal with
  | |- context [match ?x with Some _ => _ | None => _ end] =>
      is_var x; destruct x
  end;
  repeat match goal with
  | |- context [if ?b then _ else _] => destruct b
  end;
  cbn.

(** The request a call of a fetcher waits for belongs to that fetcher. *)
Lemma awaited_kind (f : Fetcher) (c : Watch.t) (r : Request) :
  awaited (stops_at (fetcher_body f c)) = Some r -> request_fetcher r = f.
Proof.
  fetcher_cases f c; intros H; try discriminate H; injection H as <-;
    reflexivity.
Qed.

(** A call that sends no request leaves the world as it is. *)
Lemma start_without_request (f : Fetcher) (c : Watch.t) (w : World) :
  awaited (stops_at (fetcher_body f c)) = None ->
  fst (run_sync (fetcher_body f c) w) = w.
Proof.
  fetcher_cases f c; intros H; try discriminate H; reflexivity.
Qed.

(** X2: whatever the events (changes of the form, timers firing, responses
    and failures of the aggregator), the fetchers leave the nine slots that
    are not theirs: among them [formValues] and [transactionStatus], so the
    view that is rendered never changes through fetching. *)
Theorem fetching_keeps_the_other_slots (events : list Event) (i : Instance) :
  in_flight_ok (runtime i) ->
  same_other_slots (home (world (runtime i)))
    (home (world (runtime (run events i))))
  /\ view_of (page (render (home (world (runtime (run events i))))))
     = view_of (page (render (home (world (runtime i))))).
Proof.
  intros Hok.
  assert (H : in_flight_ok (runtime (run events i))
              /\ same_other_slots (home (world (runtime i)))
                   (home (world (runtime (run events i))))).
  { apply (run_invariant
             (fun rt => in_flight_ok rt
                        /\ same_other_slots (home (world (runtime i)))
                             (home (world rt)))).
    - intros rt rt' Hnet [H1 H2]. split.
      + eapply in_flight_ok_same_net; eassumption.
      + destruct Hnet as (_ & -> & _). exact H2.
    - intros rt f c [H1 H2]. split.
      + apply in_flight_ok_continue. exact H1.
      + destruct (continue_spec (fetcher_body f c) rt) as (_ & _ & -> & _).
        eapply same_other_slots_trans; [ exact H2 |].
        apply (start_frame f c (world rt)).
    - intros rt id o [H1 H2]. split.
      + apply in_flight_ok_settle. exact H1.
      + destruct H1 as (Hc & _).
        destruct (@settle_cases id o rt Hc)
          as [-> | (f & c & rest & _ & _ & _ & -> & _)]; [ exact H2 |].
        eapply same_other_slots_trans; [ exact H2 |].
        apply complete_frame.
    - split; [ exact Hok | apply same_other_slots_refl ]. }
  destruct H as [_ H]. split; [ exact H |].
  rewrite !view_of_render.
  destruct H as (_ & _ & _ & Hf & _ & _ & Hs & _). rewrite Hf, Hs.
  reflexivity.
Qed.

Lemma fetching_keeps_the_other_slots_witness :
  let c := with_institution "GTBINGLA"
             (with_accountIdentifier "0123456789"
                (with_token "USDC"
                   (with_amount (JS.Number_of_bigint 100)
                      (with_currency "NGN" Watch.initial)))) in
  let events :=
    [ FormChange c; Elapse 1000;
      Settle 2 (ResolveInstitutions []);
      Settle 5 (Reject (JS.MkError "Network Error"));
      Settle 6 (ResolveRate {| data := JS.Number_of_bigint 1500 |}) ] in
  same_other_slots (home (world (runtime mount)))
    (home (world (runtime (run events mount))))
  /\ view_of (page (render (home (world (runtime (run events mount))))))
     = view_of (page (render (home (world (runtime mount))))).
Proof.
  intros c events.
  apply (@fetching_keeps_the_other_slots events mount).
  repeat split; constructor.
Defined.

(** Both ways a request for the recipient name settles clear its flag. *)
Lemma complete_name_flag (c : Watch.t) (o : Outcome) (rest : Async unit)
  (w : World) :
  resume_with (stops_at (fetcher_body RecipientName c)) o = Some rest ->
  isFetchingRecipientName
    (home (complete w {| fetcher := RecipientName; closure := c;
                         outcome := o |}))
  = false.
Proof.
  unfold complete. cbn [fetcher closure outcome].
  destruct c as [cur amt tok acc inst]. cbn [fetcher_body].
  unfold getRecipientName.
  cbn [Watch.accountIdentifier Watch.institution].
  destruct acc as [a |]; [| discriminate ].
  destruct inst as [n |]; [| discriminate ].
  destruct (JS.falsy_string (Some a) || JS.falsy_string (Some n));
    [ discriminate |].
  destruct o; cbn; intros H; try discriminate H; reflexivity.
Qed.

(** Starting a fetcher other than the one of the recipient name leaves the
    flag of the recipient name as it is. *)
Lemma start_keeps_name_flag (f : Fetcher) (c : Watch.t) (w : World) :
  f <> RecipientName ->
  isFetchingRecipientName (home (fst (run_sync (fetcher_body f c) w)))
  = isFetchingRecipientName (home w).
Proof.
  intros Hf.
  destruct (start_frame f c w) as (_ & Hs & _).
  assert (Hg : RecipientName <> f) by congruence.
  destruct (Hs RecipientName Hg) as [_ H]. symmetry. exact H.
Qed.

(** So does the completion of such a fetcher. *)
Lemma complete_keeps_name_flag (w : World) (c : Completion) :
  fetcher c <> RecipientName ->
  isFetchingRecipientName (home (complete w c))
  = isFetchingRecipientName (home w).
Proof.
  intros Hf.
  destruct (complete_frame w c) as (_ & Hs).
  assert (Hg : RecipientName <> fetcher c) by congruence.
  destruct (Hs RecipientName Hg) as [_ H]. symmetry. exact H.
Qed.

(** A request in flight that is not the one settled is still in flight
    afterwards, as far as one fetcher's requests go. *)
Lemma awaits_after_settle (f g : Fetcher) (c : Watch.t) (id : nat)
  (l : list (nat * Async unit)) :
  f <> g ->
  NoDup (map fst l) ->
  find (fun e => fst e =? id) l
  = Some (id, stops_at (fetcher_body g c)) ->
  filter (awaits f) (filter (fun e => negb (fst e =? id)) l)
  = filter (awaits f) l.
Proof.
  intros Hfg Hd Hfind.
  rewrite filter_twice. apply filter_ext_in.
  intros [n q] Hin. cbn [fst].
  destruct (n =? id) eqn:En; [| reflexivity ].
  apply Nat.eqb_eq in En. subst n.
  apply find_some in Hfind. destruct Hfind as [Hin' _].
  rewrite (@NoDup_fst_unique _ _ l id q _ Hd Hin Hin').
  unfold awaits. cbn [snd negb].
  destruct (awaited (stops_at (fetcher_body g c))) as [r |] eqn:Er;
    [| reflexivity ].
  unfold is_request_of. rewrite (awaited_kind g c Er).
  destruct f, g; try reflexivity; exfalso; apply Hfg; reflexivity.
Qed.

(** X3: whatever the events, once no request for the recipient name is in
    flight its loading flag is down: every way such a request settles
    clears the flag, so the flag cannot stay raised (as those of the
    institutions and of the rate can, after a failure). *)
Theorem recipient_name_flag_settles (events : list Event) :
  filter (awaits RecipientName) (in_flight (runtime (run events mount))) = []
  -> isFetchingRecipientName (home (world (runtime (run events mount))))
     = false.
Proof.
  assert (H : in_flight_ok (runtime (run events mount))
              /\ (filter (awaits RecipientName)
                    (in_flight (runtime (run events mount))) = [] ->
                  isFetchingRecipientName
                    (home (world (runtime (run events mount)))) = false)).
  { apply (run_invariant
             (fun rt => in_flight_ok rt
                        /\ (filter (awaits RecipientName) (in_flight rt) = []
                            -> isFetchingRecipientName (home (world rt))
                               = false))).
    - intros rt rt' Hnet [H1 H2]. split.
      + eapply in_flight_ok_same_net; eassumption.
      + destruct Hnet as (-> & -> & _). exact H2.
    - intros rt f c [H1 H2]. split.
      + apply in_flight_ok_continue. exact H1.
      + destruct (continue_spec (fetcher_body f c) rt)
          as (_ & _ & -> & _ & -> & _).
        rewrite filter_app.
        destruct (awaited (stops_at (fetcher_body f c))) as [r |] eqn:Er.
        * pose proof (awaited_kind f c Er) as Hk.
          cbn [filter]. unfold awaits at 2. cbn [snd]. rewrite Er.
          unfold is_request_of. rewrite Hk.
          destruct f; cbn [Fetcher_eqb]; rewrite ?app_nil_r; intros Hnone.
          -- rewrite start_keeps_name_flag by discriminate.
             exact (H2 Hnone).
          -- apply app_eq_nil in Hnone. destruct Hnone as [_ Hnone].
             discriminate Hnone.
          -- rewrite start_keeps_name_flag by discriminate.
             exact (H2 Hnone).
        * rewrite (start_without_request f c (world rt) Er), app_nil_r.
          exact H2.
    - intros rt id o [H1 H2]. split.
      + apply in_flight_ok_settle. exact H1.
      + destruct H1 as (Hc & Hd & _).
        destruct (@settle_cases id o rt Hc)
          as [-> | (f & c & rest & Hfind & Hres & -> & -> & _)];
          [ exact H2 |].
        destruct f.
        * intros Hnone.
          rewrite complete_keeps_name_flag by discriminate.
          apply H2. rewrite <- Hnone. symmetry.
          apply (@awaits_after_settle RecipientName Institutions c id
                   (in_flight rt)); [ discriminate | exact Hd | exact Hfind ].
        * intros _. apply (complete_name_flag c o (world rt) Hres).
        * intros Hnone.
          rewrite complete_keeps_name_flag by discriminate.
          apply H2. rewrite <- Hnone. symmetry.
          apply (@awaits_after_settle RecipientName Rate c id
                   (in_flight rt)); [ discriminate | exact Hd | exact Hfind ].
    - split; [ exact mount_in_flight_ok | reflexivity ]. }
  apply H.
Qed.

Lemma recipient_name_flag_settles_witness :
  let c := with_institution "GTBINGLA"
             (with_accountIdentifier "0123456789" Watch.initial) in
  let events :=
    [ FormChange c; Elapse 1000;
      Settle 3 (Reject (JS.MkError "Network Error")) ] in
  filter (awaits RecipientName) (in_flight (runtime (run events mount))) = []
  /\ isFetchingRecipientName (home (world (runtime (run events mount))))
     = false.
Proof.
  intros c events.
  split; [ reflexivity |].
  apply (recipient_name_flag_settles events). reflexivity.
Defined.

(* ================================================================== *)
(** ** The runtime: the timers pending *)
(* ================================================================== *)

(** The debounce of a fetcher is in one of its two states after every
    run. *)
Lemma run_debounce_state (f : Fetcher) (events : list Event) :
  f <> Institutions ->
  forall (i : Instance) (quiet : nat),
    timers_owned i -> settled_locally i -> debounce_state f i quiet ->
    exists quiet' : nat, debounce_state f (run events i) quiet'.
Proof.
  intros Hf.
  induction events as [| ev events IH]; intros i quiet Hown Hloc Hstate;
    [ exists quiet; exact Hstate |].
  cbn [run fold_left]. fold (run events (step i ev)).
  pose proof (step_timers_owned ev Hown) as Hown'.
  pose proof (step_settled_locally ev Hloc) as Hloc'.
  destruct ev as [w' | ms | id o].
  - destruct (@rerender_debounce f w' i quiet Hf Hown Hstate) as [_ Hnext].
    cbn [step] in *.
    destruct (deps_changed f (watched i) w').
    + exact (IH _ 0 Hown' Hloc' Hnext).
    + destruct Hnext as [Hnext _]. exact (IH _ quiet Hown' Hloc' Hnext).
  - destruct (@elapse_debounce f ms i quiet Hstate) as [Hnext _].
    exact (IH _ (quiet + ms) Hown' Hloc' Hnext).
  - destruct (@settle_debounce f id o i quiet Hloc Hstate) as [Hnext _].
    exact (IH _ quiet Hown' Hloc' Hnext).
Qed.

(** Every timer calls one of the two debounced fetchers. *)
Lemma timers_by_fetcher (ts : list Timer) :
  List.length ts
  = List.length (filter (is_timer_of RecipientName) ts)
    + List.length (filter (is_timer_of Rate) ts).
Proof.
  induction ts as [| t ts IH]; [ reflexivity |].
  cbn [filter].
  assert (H : is_timer_of Rate t = negb (is_timer_of RecipientName t))
    by (unfold is_timer_of; destruct (callback t); reflexivity).
  rewrite H.
  destruct (is_timer_of RecipientName t); cbn [negb List.length]; lia.
Qed.

Lemma pending_of_debounce_state (f : Fetcher) (i : Instance) (quiet : nat) :
  debounce_state f i quiet ->
  List.length (filter (is_timer_of f) (timers (runtime i))) <= 1
  /\ Forall (fun t => now (runtime i) < due t <= now (runtime i) + 1000)
       (filter (is_timer_of f) (timers (runtime i))).
Proof.
  intros [[-> _] | (t & -> & Hlt & Hdue)].
  - split; [ cbn; lia | constructor ].
  - split; [ cbn; lia |]. constructor; [ lia | constructor ].
Qed.

(** X4: whatever the events, at most one timer of each debounced effect is
    pending, so at most two in all: the cleanup of an effect clears the
    timer of its previous run before the effect sets the next.  A pending
    timer is due within the next 1000 ms. *)
Theorem one_pending_timer_per_effect (events : list Event) :
  let rt := runtime (run events mount) in
  List.length (filter (is_timer_of RecipientName) (timers rt)) <= 1
  /\ List.length (filter (is_timer_of Rate) (timers rt)) <= 1
  /\ List.length (timers rt) <= 2
  /\ Forall (fun t => now rt < due t <= now rt + 1000) (timers rt).
Proof.
  intros rt. subst rt.
  destruct (@run_debounce_state RecipientName events ltac:(discriminate)
              mount 0 mount_timers_owned mount_settled_locally
              (@mount_debounce_state RecipientName ltac:(discriminate)))
    as [qR HR].
  destruct (@run_debounce_state Rate events ltac:(discriminate)
              mount 0 mount_timers_owned mount_settled_locally
              (@mount_debounce_state Rate ltac:(discriminate)))
    as [qT HT].
  destruct (pending_of_debounce_state HR) as [HR1 HR2].
  destruct (pending_of_debounce_state HT) as [HT1 HT2].
  split; [ exact HR1 |]. split; [ exact HT1 |].
  split; [ rewrite timers_by_fetcher; lia |].
  rewrite Forall_forall in *. intros t Hin.
  destruct (is_timer_of RecipientName t) eqn:E.
  - apply HR2. apply filter_In. split; assumption.
  - apply HT2. apply filter_In. split; [ assumption |].
    unfold is_timer_of in *. destruct (callback t); [ discriminate E |].
    reflexivity.
Qed.

(* ================================================================== *)
(** ** The runtime: what the timers ask for *)
(* ================================================================== *)

Lemma same_string_eq (a b : option string) :
  same_string a b = true -> a = b.
Proof.
  destruct a as [x |], b as [y |]; cbn; intros H; try discriminate H;
    [| reflexivity ].
  apply String.eqb_eq in H. congruence.
Qed.

Lemma same_number_eq (a b : option number) :
  same_number a b = true -> a = b.
Proof.
  destruct a as [x |], b as [y |]; cbn; intros H; try discriminate H;
    [| reflexivity ].
  apply Object_is_eq in H. congruence.
Qed.

(** A timer that a render leaves pending closes over values that the
    render did not change. *)
Lemma closure_current_kept (w w' : Watch.t) (t : Timer) :
  closure_current w t ->
  negb (recipient_name_deps_changed w w' && is_timer_of RecipientName t)
  && negb (rate_deps_changed w w' && is_timer_of Rate t) = true ->
  closure_current w' t.
Proof.
  unfold closure_current, is_timer_of, recipient_name_deps_changed,
    rate_deps_changed.
  destruct (callback t) as [c | c]; cbn [callback_fetcher Fetcher_eqb];
    rewrite ?andb_true_r, ?andb_false_r; cbn [negb andb].
  - rewrite andb_true_r, negb_involutive. intros Hc Hsame.
    rewrite Hc. apply same_string_eq. exact Hsame.
  - rewrite !negb_orb, !negb_involutive. intros (Hc & Ha & Ht) Hsame.
    apply andb_prop in Hsame. destruct Hsame as [Hsame H3].
    apply andb_prop in Hsame. destruct Hsame as [H1 H2].
    rewrite Hc, Ha, Ht.
    split; [| split ];
      [ apply same_string_eq | apply same_number_eq | apply same_string_eq ];
      assumption.
Qed.

Lemma step_closures_current (i : Instance) (ev : Event) :
  timers_owned i ->
  Forall (closure_current (watched i)) (timers (runtime i)) ->
  Forall (closure_current (watched (step i ev))) (timers (runtime (step i ev))).
Proof.
  intros Hown Hcur. rewrite Forall_forall in *.
  destruct ev as [w' | ms | id o]; cbn [step watched runtime].
  - destruct (rerender_timers w' Hown) as (n & _ & Ht & _).
    cbv zeta in Ht.
    destruct (rerender_spec w' i) as (-> & _).
    rewrite Ht. intros t Hin.
    apply in_app_or in Hin. destruct Hin as [Hin | Hin].
    + apply filter_In in Hin. destruct Hin as [Hin Hkept].
      exact (@closure_current_kept (watched i) w' t (Hcur t Hin) Hkept).
    + apply in_app_or in Hin.
      destruct Hin as [Hin | Hin];
        [ destruct (recipient_name_deps_changed (watched i) w')
        | destruct (rate_deps_changed (watched i) w') ];
        try (destruct Hin as [Hin | Hin]); try (destruct Hin);
        unfold closure_current; cbn; repeat split; reflexivity.
  - intros t Hin. rewrite elapse_timers in Hin.
    apply filter_In in Hin. apply Hcur. apply Hin.
  - intros t Hin. destruct (settle_timers id o (runtime i)) as [Ht _].
    rewrite Ht in Hin. apply Hcur. exact Hin.
Qed.

Lemma run_closures_current (events : list Event) :
  forall i : Instance,
    timers_owned i ->
    Forall (closure_current (watched i)) (timers (runtime i)) ->
    Forall (closure_current (watched (run events i)))
      (timers (runtime (run events i))).
Proof.
  induction events as [| ev events IH]; intros i Hown Hcur; [ exact Hcur |].
  cbn [run fold_left]. fold (run events (step i ev)).
  apply IH; [ apply step_timers_owned; exact Hown |].
  apply step_closures_current; assumption.
Qed.

Lemma mount_closures_current :
  Forall (closure_current (watched mount)) (timers (runtime mount)).
Proof. repeat constructor. Qed.

(** The request the callback of a timer sends asks for the values the
    callback closed over. *)
Lemma callback_request_current (w : Watch.t) (t : Timer) (r : Request) :
  closure_current w t ->
  awaited (stops_at (callback_body (callback t))) = Some r ->
  request_current w r.
Proof.
  unfold closure_current.
  destruct (callback t) as [c | c]; cbn [callback_body].
  - rewrite awaited_getRecipientName. intros Hc.
    destruct (Watch.accountIdentifier c) as [a |]; [| discriminate ].
    destruct (Watch.institution c) as [n |]; [| discriminate ].
    destruct (JS.falsy_string (Some a) || JS.falsy_string (Some n));
      [ discriminate |].
    intros H. injection H as <-. cbn. symmetry. exact Hc.
  - rewrite awaited_getRate. intros (Hc & Ha & _).
    destruct (Watch.currency c) as [cur |]; [| discriminate ].
    destruct (Watch.amount c) as [a |]; [| discriminate ].
    destruct (JS.falsy_string (Some cur) || JS.falsy_number (Some a)
              || JS.falsy_string (Watch.token c)); [ discriminate |].
    intros H. injection H as <-. cbn. split; symmetry; assumption.
Qed.

(** The timers that fire send the requests of their callbacks, and nothing
    else is sent. *)
Lemma fire_all_new (ts : list Timer) :
  forall rt : Runtime,
  exists new : list (nat * Request),
    sent (fold_left fire ts rt) = sent rt ++ new
    /\ Forall (fun entry =>
                 exists t : Timer,
                   In t ts
                   /\ awaited (stops_at (callback_body (callback t)))
                      = Some (snd entry)) new.
Proof.
  induction ts as [| t ts IH]; intros rt.
  - exists []. cbn. rewrite app_nil_r. split; [ reflexivity | constructor ].
  - cbn [fold_left]. destruct (IH (fire rt t)) as (new & Hsent & Hnew).
    assert (Hs : sent (fire rt t)
                 = sent rt
                   ++ match awaited (stops_at (callback_body (callback t)))
                      with
                      | Some request => [(Nat.max (now rt) (due t), request)]
                      | None => []
                      end).
    { unfold fire.
      destruct (continue_spec (callback_body (callback t))
                  (at_time (Nat.max (now rt) (due t)) rt))
        as (_ & _ & _ & Hs & _).
      exact Hs. }
    rewrite Hs, <- app_assoc in Hsent.
    eexists. split; [ exact Hsent |].
    apply Forall_app. split.
    + destruct (awaited (stops_at (callback_body (callback t)))) as [r |]
        eqn:Er; constructor; [| constructor ].
      exists t. split; [ left; reflexivity | exact Er ].
    + eapply Forall_impl; [| exact Hnew ].
      intros entry (t' & Hin & Ht'). exists t'.
      split; [ right; exact Hin | exact Ht' ].
Qed.

(** X5: whenever time passes, after whatever events, the requests that go
    out then ask for what the form holds at that moment: a request for the
    rate carries the amount and the currency of the form, a request for the
    recipient name its account identifier.  A timer set for older values
    was cleared when they changed. *)
Theorem timers_ask_for_the_current_form (events : list Event) (ms : nat) :
  let i := run events mount in
  exists new : list (nat * Request),
    sent (runtime (step i (Elapse ms))) = sent (runtime i) ++ new
    /\ Forall (fun entry => request_current (watched i) (snd entry)) new.
Proof.
  intros i. subst i. cbn [step runtime]. unfold elapse.
  cbn [at_time sent].
  pose proof (@run_closures_current events mount mount_timers_owned
                mount_closures_current) as Hcur.
  destruct (fire_all_new
              (filter (is_due (now (runtime (run events mount)) + ms))
                 (timers (runtime (run events mount))))
              (with_timers
                 (filter (fun t => negb (is_due
                                          (now (runtime (run events mount))
                                           + ms) t))
                    (timers (runtime (run events mount))))
                 (runtime (run events mount))))
    as (new & Hsent & Hnew).
  exists new. split; [ exact Hsent |].
  eapply Forall_impl; [| exact Hnew ].
  intros entry (t & Hin & Ht).
  apply filter_In in Hin. destruct Hin as [Hin _].
  rewrite Forall_forall in Hcur.
  exact (@callback_request_current _ t (snd entry) (Hcur t Hin) Ht).
Qed.

(* ================================================================== *)
(** ** The runtime: responses that arrive late *)
(* ================================================================== *)

(** What a call of a fetcher stores when its request is fulfilled. *)
Lemma complete_fulfilled (f : Fetcher) (c : Watch.t) (w : World)
  (request : Request) :
  awaited (stops_at (fetcher_body f c)) = Some request ->
  match f with
  | Institutions =>
      forall l : list InstitutionProps,
        let st := home (complete w {| fetcher := f; closure := c;
                                      outcome := ResolveInstitutions l |}) in
        institutions st = l /\ isFetchingInstitutions st = false
  | RecipientName =>
      forall s : string,
        let st := home (complete w {| fetcher := f; closure := c;
                                      outcome := ResolveAccountName s |}) in
        recipientName st = s /\ isFetchingRecipientName st = false
  | Rate =>
      forall r : RateResponse,
        let st := home (complete w {| fetcher := f; closure := c;
                                      outcome := ResolveRate r |}) in
        rate st = data r /\ isFetchingRate st = false
  end.
Proof.
  unfold complete. cbn [fetcher closure outcome].
  fetcher_cases f c; intros H; try discriminate H; intros x; cbn;
    split; reflexivity.
Qed.

(** A request in flight after a run is the call of the fetcher it asks
    for, and its settlement completes that call. *)
Lemma settle_in_flight (events : list Event) (id : nat) (p : Async unit)
  (g : Fetcher) (o : Outcome) :
  In (id, p) (in_flight (runtime (run events mount))) ->
  awaits g (id, p) = true ->
  exists (c : Watch.t) (request : Request),
    awaited (stops_at (fetcher_body g c)) = Some request
    /\ world (runtime (step (run events mount) (Settle id o)))
       = complete (world (runtime (run events mount)))
           {| fetcher := g; closure := c; outcome := o |}.
Proof.
  intros Hin Hg.
  destruct (@run_in_flight_ok events mount mount_in_flight_ok)
    as (Hcall & Hd & _).
  rewrite Forall_forall in Hcall.
  destruct (Hcall _ Hin) as (f & c & Hp). cbn [snd] in Hp. subst p.
  unfold awaits in Hg. cbn [snd] in Hg.
  destruct (awaited (stops_at (fetcher_body f c))) as [request |] eqn:Er;
    [| discriminate Hg ].
  unfold is_request_of in Hg. rewrite (awaited_kind f c Er) in Hg.
  assert (f = g) by (destruct f, g; try discriminate Hg; reflexivity).
  subst g. exists c, request. split; [ exact Er |].
  cbn [step runtime]. apply settle_completes.
  apply find_by_id; assumption.
Qed.

(** X6: a response is stored whenever it arrives, whatever the form holds
    by then and whatever was answered meanwhile: the settlement of a request
    in flight with a fulfilled response writes that response to the slot of
    its fetcher and lowers its loading flag.  So the response to an older
    request that arrives after the response to a newer one is the one
    shown. *)
Theorem late_response_is_stored (events : list Event) (id : nat)
  (p : Async unit) :
  In (id, p) (in_flight (runtime (run events mount))) ->
  let after (o : Outcome) :=
    home (world (runtime (step (run events mount) (Settle id o)))) in
  (awaits Institutions (id, p) = true ->
   forall l : list InstitutionProps,
     institutions (after (ResolveInstitutions l)) = l
     /\ isFetchingInstitutions (after (ResolveInstitutions l)) = false)
  /\ (awaits RecipientName (id, p) = true ->
      forall s : string,
        recipientName (after (ResolveAccountName s)) = s
        /\ isFetchingRecipientName (after (ResolveAccountName s)) = false)
  /\ (awaits Rate (id, p) = true ->
      forall r : RateResponse,
        rate (after (ResolveRate r)) = data r
        /\ isFetchingRate (after (ResolveRate r)) = false).
Proof.
  intros Hin after. subst after. cbv beta.
  split; [| split ].
  - intros Hg l.
    destruct (@settle_in_flight events id p Institutions
                (ResolveInstitutions l) Hin Hg) as (c & request & Er & ->).
    exact (@complete_fulfilled Institutions c _ request Er l).
  - intros Hg s.
    destruct (@settle_in_flight events id p RecipientName
                (ResolveAccountName s) Hin Hg) as (c & request & Er & ->).
    exact (@complete_fulfilled RecipientName c _ request Er s).
  - intros Hg r.
    destruct (@settle_in_flight events id p Rate
                (ResolveRate r) Hin Hg) as (c & request & Er & ->).
    exact (@complete_fulfilled Rate c _ request Er r).
Qed.

Lemma late_response_is_stored_witness :
  let form := with_token "USDC" (with_currency "NGN" Watch.initial) in
  let typed (n : Z) := FormChange (with_amount (JS.Number_of_bigint n) form) in
  let events :=
    [ typed 100%Z; Elapse 1000; typed 200%Z; Elapse 1000;
      Settle 6 (ResolveRate {| data := JS.Number_of_bigint 1600 |}) ] in
  let p := stops_at (getRate (with_amount (JS.Number_of_bigint 100) form)) in
  In (4, p) (in_flight (runtime (run events mount)))
  /\ awaits Rate (4, p) = true
  /\ Watch.amount (watched (run events mount))
     = Some (JS.Number_of_bigint 200)
  /\ rate (home (world (runtime (run events mount))))
     = JS.Number_of_bigint 1600
  /\ rate (home (world (runtime
             (step (run events mount)
                (Settle 4 (ResolveRate
                             {| data := JS.Number_of_bigint 1500 |}))))))
     = JS.Number_of_bigint 1500.
Proof.
  intros form typed events p.
  assert (Hin : In (4, p) (in_flight (runtime (run events mount))))
    by (right; left; reflexivity).
  split; [ exact Hin |].
  split; [ reflexivity |]. split; [ reflexivity |]. split; [ reflexivity |].
  destruct (@late_response_is_stored events 4 p Hin) as (_ & _ & H).
  exact (proj1 (H eq_refl {| data := JS.Number_of_bigint 1500 |})).
Defined.

(* ================================================================== *)
(** ** The fee calculator: where its renders end *)
(* ================================================================== *)

Lemma Object_is_refl (x : number) : JS.Object_is x x = true.
Proof. apply Object_is_eq. reflexivity. Qed.

(** Running the effect on a state whose percent is the ratio already. *)
Lemma fee_effect_current (details : option (Z * Z)) (amount : option number)
  (st : HomeState) :
  protocolFeePercent st = fee_ratio details ->
  fee_effect details amount st
  = setFee (display_fee (fee_ratio details) amount)
      (setProtocolFeePercent (fee_ratio details) st).
Proof. unfold fee_effect. intros ->. reflexivity. Qed.

Lemma fee_effect_twice (details : option (Z * Z)) (amount : option number)
  (st : HomeState) :
  fee_effect details amount (fee_effect details amount st)
  = setFee (display_fee (fee_ratio details) amount)
      (setProtocolFeePercent (fee_ratio details) st).
Proof. destruct st. reflexivity. Qed.

(** X7: the effect that calculates the fee sets one of its own
    dependencies, and yet its renders end: from the first run on, two runs
    at most are made while the contract data and the amount stay as they
    are, they leave the ratio and the fee rounded from it, and a further run
    would change nothing.  This holds also when the ratio is [NaN], which
    [Object.is] takes for unchanged. *)
Theorem fee_renders_end (details : option (Z * Z)) (amount : option number)
  (st : HomeState) (fuel : nat) :
  2 <= fuel ->
  let st' := fee_renders fuel details amount None st in
  st' = setFee (display_fee (fee_ratio details) amount)
          (setProtocolFeePercent (fee_ratio details) st)
  /\ fee_effect details amount st' = st'
  /\ JS.Object_is (protocolFeePercent st')
       (protocolFeePercent (fee_effect details amount st')) = true.
Proof.
  intros Hfuel.
  assert (H : fee_renders fuel details amount None st
              = setFee (display_fee (fee_ratio details) amount)
                  (setProtocolFeePercent (fee_ratio details) st)).
  { destruct fuel as [| [| fuel]]; try lia.
    cbn [fee_renders].
    rewrite protocolFeePercent_fee_effect.
    destruct (JS.Object_is (protocolFeePercent st) (fee_ratio details))
      eqn:E.
    - apply Object_is_eq in E. apply fee_effect_current. exact E.
    - destruct fuel as [| fuel]; cbn [fee_renders].
      + apply fee_effect_twice.
      + rewrite protocolFeePercent_fee_effect, Object_is_refl.
        apply fee_effect_twice. }
  cbv zeta. rewrite H.
  split; [ reflexivity |]. split.
  - destruct st. reflexivity.
  - destruct st. cbn. apply Object_is_refl.
Qed.

Lemma fee_renders_end_witness :
  let st' := fee_renders 5 None (Some (JS.Number_of_bigint 100)) None
               initial_state in
  st' = setFee (display_fee (fee_ratio None) (Some (JS.Number_of_bigint 100)))
          (setProtocolFeePercent (fee_ratio None) initial_state)
  /\ fee_effect None (Some (JS.Number_of_bigint 100)) st' = st'
  /\ JS.Object_is (protocolFeePercent st')
       (protocolFeePercent
          (fee_effect None (Some (JS.Number_of_bigint 100)) st')) = true.
Proof.
  apply (@fee_renders_end None (Some (JS.Number_of_bigint 100))
           initial_state 5).
  lia.
Defined.

(* ================================================================== *)
(** ** The fee calculator: fees that are not numbers *)
(* ================================================================== *)

(** The quotient [SFdiv_core_binary] hands to the rounding is not
    negative. *)
Lemma SFdiv_core_binary_nonneg (num den : positive) :
  (0 <= fst (fst (SFdiv_core_binary JS.prec JS.emax (Zpos num) 0
                    (Zpos den) 0)))%Z.
Proof.
  unfold SFdiv_core_binary.
  set (e' := Z.min _ _). set (s := (0 - 0 - e')%Z).
  set (m' := match s with
             | Zpos _ => Z.shiftl (Zpos num) s
             | Z0 => Zpos num
             | Zneg _ => 0%Z
             end).
  assert (Hm : (0 <= m')%Z).
  { subst m'. destruct s; try lia. apply Z.shiftl_nonneg. lia. }
  pose proof (Z.div_pos m' (Zpos den) Hm ltac:(lia)) as Hq.
  unfold Z.div in Hq.
  destruct (Z.div_eucl m' (Zpos den)) as [q r]. exact Hq.
Qed.

Lemma nearest_number_not_NaN (negative : bool) (num den : positive) :
  JS.nearest_number negative num den <> JS.NaN.
Proof.
  unfold JS.nearest_number.
  pose proof (SFdiv_core_binary_nonneg num den) as Hq.
  destruct (SFdiv_core_binary JS.prec JS.emax (Zpos num) 0 (Zpos den) 0)
    as [[q e] l].
  cbn [fst] in Hq.
  pose proof (binary_round_aux_shape negative e l Hq) as H.
  intros E. unfold JS.NaN in E. rewrite E in H. exact H.
Qed.

(** X8: the fee shown is [NaN] exactly when the product of the percent and
    the amount is: rounding to five decimals neither makes a [NaN] nor
    removes one.  So the fee is [NaN] while the contract has not been read
    or the amount is undefined, and a number or an infinity otherwise,
    unless the product is zero times infinity. *)
Theorem fee_is_NaN_iff_the_product_is (percent : number)
  (amount : option number) :
  display_fee percent amount = JS.NaN
  <-> JS.mul percent (JS.Number_of_optional amount) = JS.NaN.
Proof.
  unfold display_fee, JS.Number_of_number, JS.toString.
  destruct (JS.mul percent (JS.Number_of_optional amount)) as [s | s | | s m e];
    cbn [JS.toFixed JS.parseFloat].
  - split; discriminate.
  - split; discriminate.
  - split; reflexivity.
  - destruct (JS.at_least_1e21 m e); cbn [JS.parseFloat].
    + destruct s; cbn; split; discriminate.
    + destruct (JS.nearest_scaled m e 5) as [| p | p].
      * split; discriminate.
      * split; [ intros H; exfalso; exact (@nearest_number_not_NaN _ _ _ H)
               | discriminate ].
      * split; discriminate.
Qed.

(** X9: a contract that returns a zero denominator never gives a finite
    fee: the ratio is an infinity or [NaN], and so is the fee, for every
    numerator and every amount. *)
Theorem zero_denominator_fee_is_not_finite (numerator : Z)
  (amount : option number) (st : HomeState) (fuel : nat) :
  2 <= fuel ->
  is_finite (fee_ratio (Some (numerator, 0%Z))) = false
  /\ is_finite (fee (fee_renders fuel (Some (numerator, 0%Z)) amount None st))
     = false.
Proof.
  intros Hfuel.
  destruct (@fee_renders_settle fuel (Some (numerator, 0%Z)) amount st Hfuel)
    as [_ ->].
  assert (Hr : is_finite (fee_ratio (Some (numerator, 0%Z))) = false).
  { unfold fee_ratio, fee_detail_0, fee_detail_1. cbn [option_map fst snd].
    unfold JS.Number_of_optional_bigint, JS.div.
    change (JS.Number_of_bigint 0) with (S754_zero false).
    destruct (JS.Number_of_bigint numerator); reflexivity. }
  split; [ exact Hr |].
  unfold display_fee, JS.Number_of_number, JS.toString, JS.mul.
  destruct (fee_ratio (Some (numerator, 0%Z))) as [s | s | | s m e];
    try discriminate Hr;
    destruct (JS.Number_of_optional amount) as [s' | s' | | s' m' e'];
    reflexivity.
Qed.

Lemma zero_denominator_fee_is_not_finite_witness :
  is_finite (fee_ratio (Some (5, 0)%Z)) = false
  /\ is_finite (fee (fee_renders 2 (Some (5, 0)%Z)
                       (Some (JS.Number_of_bigint 100)) None initial_state))
     = false.
Proof.
  apply (@zero_denominator_fee_is_not_finite 5
           (Some (JS.Number_of_bigint 100)) initial_state 2).
  lia.
Defined.

(* ================================================================== *)
(** ** The handlers and the view they lead to *)
(* ================================================================== *)

(** X10: submitting the form and going back from the preview is a round
    trip: from a state that shows the form, [onSubmit] with values that are
    not all empty shows the preview, and the back button of the preview
    restores the very state before, so the form is shown again with the
    rate, the fee, the recipient name and the institutions fetched so
    far. *)
Theorem submit_then_back_is_a_round_trip (data : FormData.t)
  (st : HomeState) :
  transactionStatus st = idle ->
  formValues st = INITIAL_FORM_STATE ->
  form_is_empty data = false ->
  view_of (page (render st)) = FormView
  /\ view_of (page (render (onSubmit data st))) = PreviewView
  /\ handleBackButtonClick (onSubmit data st) = st.
Proof.
  intros Hidle Hform Hdata.
  rewrite !view_of_render.
  unfold handleBackButtonClick, onSubmit.
  destruct st. cbn in *. subst. rewrite Hdata.
  repeat split; reflexivity.
Qed.

Lemma submit_then_back_is_a_round_trip_witness :
  let data := FormData.Build "base" "USDC" (JS.Number_of_bigint 100) "NGN"
                "GTBINGLA" "0123456789" "Ada" "rent" in
  view_of (page (render initial_state)) = FormView
  /\ view_of (page (render (onSubmit data initial_state))) = PreviewView
  /\ handleBackButtonClick (onSubmit data initial_state) = initial_state.
Proof.
  intros data.
  apply (@submit_then_back_is_a_round_trip data initial_state);
    reflexivity.
Defined.

(** X11: the status page gets two callbacks, and it takes both to return to
    the empty form: after a submitted order, [clearForm] alone leaves the
    status page up, [clearTransactionStatus] alone shows the preview of the
    submitted values again, and the two together, in either order, show the
    form. *)
Theorem leaving_the_status_page_takes_both_callbacks (st : HomeState) :
  transactionStatus st <> idle ->
  form_is_empty (formValues st) = false ->
  view_of (page (render (clearForm st))) = StatusView
  /\ view_of (page (render (clearTransactionStatus st))) = PreviewView
  /\ view_of (page (render (clearTransactionStatus (clearForm st))))
     = FormView
  /\ clearTransactionStatus (clearForm st)
     = clearForm (clearTransactionStatus st).
Proof.
  intros Hstatus Hform.
  rewrite !view_of_render.
  unfold clearForm, clearTransactionStatus.
  destruct st as [? ? ? ? ? ? ? ? ? ? ? ? status ? ?]. cbn in *.
  rewrite Hform.
  destruct status; try contradiction; repeat split; reflexivity.
Qed.

Lemma leaving_the_status_page_takes_both_callbacks_witness :
  let data := FormData.Build "base" "USDC" (JS.Number_of_bigint 100) "NGN"
                "GTBINGLA" "0123456789" "Ada" "rent" in
  let st := setTransactionStatus pending (onSubmit data initial_state) in
  view_of (page (render (clearForm st))) = StatusView
  /\ view_of (page (render (clearTransactionStatus st))) = PreviewView
  /\ view_of (page (render (clearTransactionStatus (clearForm st))))
     = FormView
  /\ clearTransactionStatus (clearForm st)
     = clearForm (clearTransactionStatus st).
Proof.
  intros data st.
  apply (@leaving_the_status_page_takes_both_callbacks st);
    [ discriminate | reflexivity ].
Defined.

(* ================================================================== *)
(** ** The earlier form: account numbers that pass *)
(* ================================================================== *)

Lemma digits_at_start_spec (n : nat) (s : EarlierHome.text) :
  EarlierHome.digits_at_start n s = true
  <-> n <= List.length s
      /\ forallb EarlierHome.is_digit (firstn n s) = true.
Proof.
  revert s. induction n as [| n IH]; intros s.
  - cbn. split; [ intros _; split; [ lia | reflexivity ] | reflexivity ].
  - destruct s as [| c s]; cbn [EarlierHome.digits_at_start firstn forallb
                                 List.length].
    + split; [ discriminate | intros [H _]; lia ].
    + rewrite !andb_true_iff, IH. split.
      * intros (Hc & Hn & Hs). repeat split; [ lia | exact Hc | exact Hs ].
      * intros (Hn & Hc & Hs). repeat split; [ exact Hc | lia | exact Hs ].
Qed.

(** A value that passes holds ten characters at least. *)
Lemma recipientAccount_pattern_length (s : EarlierHome.text) :
  EarlierHome.recipientAccount_pattern s = true -> 10 <= List.length s.
Proof.
  induction s as [| c s IH];
    cbn [EarlierHome.recipientAccount_pattern]; intros H;
    apply orb_true_iff in H; destruct H as [H | H].
  - discriminate H.
  - discriminate H.
  - apply digits_at_start_spec in H. apply H.
  - cbn [List.length]. specialize (IH H). lia.
Qed.

(** X12: the pattern is not anchored: a value passes exactly when ten
    digits in a row occur somewhere in it, whatever comes before and
    after. *)
Theorem recipientAccount_pattern_finds_ten_digits (value : EarlierHome.text) :
  EarlierHome.recipientAccount_pattern value = true
  <-> exists before digits after : EarlierHome.text,
        value = before ++ digits ++ after
        /\ List.length digits = 10
        /\ forallb EarlierHome.is_digit digits = true.
Proof.
  split.
  - induction value as [| c s IH];
      cbn [EarlierHome.recipientAccount_pattern]; intros H;
      apply orb_true_iff in H; destruct H as [H | H];
      try discriminate H.
    + apply digits_at_start_spec in H. destruct H as [Hlen Hd].
      exists [], (firstn 10 (c :: s)), (skipn 10 (c :: s)).
      split; [ symmetry; apply (firstn_skipn 10 (c :: s)) |].
      split; [ rewrite length_firstn; lia | exact Hd ].
    + destruct (IH H) as (before & digits & after & -> & Hlen & Hd).
      exists (c :: before), digits, after. repeat split; assumption.
  - intros (before & digits & after & -> & Hlen & Hd).
    induction before as [| c before IH].
    + cbn [app]. destruct (digits ++ after) as [| c s] eqn:E.
      * destruct digits; [ discriminate Hlen | discriminate E ].
      * cbn [EarlierHome.recipientAccount_pattern]. apply orb_true_iff. left.
        rewrite <- E. apply digits_at_start_spec.
        rewrite length_app, firstn_app, Hlen, Nat.sub_diag, firstn_O,
          app_nil_r, <- Hlen, firstn_all.
        split; [ lia | exact Hd ].
    + cbn [app EarlierHome.recipientAccount_pattern].
      apply orb_true_iff. right. exact IH.
Qed.

(** X13: within the ten characters that [maxLength] lets one type, the
    pattern passes exactly the values made of ten digits, and for these the
    count beside the field shows 0; with fewer characters typed the value
    does not pass. *)
Theorem typed_account_passes_iff_ten_digits (value : EarlierHome.text) :
  List.length value <= 10 ->
  (EarlierHome.recipientAccount_pattern value = true
   <-> List.length value = 10
       /\ forallb EarlierHome.is_digit value = true)
  /\ (EarlierHome.recipientAccount_pattern value = true ->
      EarlierHome.characters_left 10 (Some value) = 0%Z)
  /\ (0 <= EarlierHome.characters_left 10 (Some value) <= 10)%Z.
Proof.
  intros Hmax.
  assert (Hiff : EarlierHome.recipientAccount_pattern value = true
                 <-> List.length value = 10
                     /\ forallb EarlierHome.is_digit value = true).
  { split.
    - intros H. pose proof (recipientAccount_pattern_length value H) as Hlen.
      assert (Hten : List.length value = 10) by lia.
      split; [ exact Hten |].
      destruct value as [| c s]; [ discriminate Hten |].
      cbn [EarlierHome.recipientAccount_pattern] in H.
      apply orb_true_iff in H. destruct H as [H | H].
      + apply digits_at_start_spec in H. destruct H as [_ H].
        rewrite <- Hten, firstn_all in H. exact H.
      + apply recipientAccount_pattern_length in H.
        cbn [List.length] in Hten. lia.
    - intros [Hten Hd].
      destruct value as [| c s]; [ discriminate Hten |].
      cbn [EarlierHome.recipientAccount_pattern]. apply orb_true_iff. left.
      apply digits_at_start_spec.
      rewrite <- Hten, firstn_all. split; [ lia | exact Hd ]. }
  split; [ exact Hiff |]. unfold EarlierHome.characters_left. split.
  - intros H. apply Hiff in H. destruct H as [-> _]. reflexivity.
  - lia.
Qed.

Lemma typed_account_passes_iff_ten_digits_witness :
  let value := [48; 49; 50; 51; 52; 53; 54; 55; 56; 57]%N in
  EarlierHome.recipientAccount_pattern value = true
  /\ EarlierHome.characters_left 10 (Some value) = 0%Z.
Proof.
  intros value.
  destruct (@typed_account_passes_iff_ten_digits value) as (Hiff & H0 & _);
    [ cbn; lia |].
  assert (H : EarlierHome.recipientAccount_pattern value = true)
    by (apply Hiff; split; reflexivity).
  split; [ exact H | exact (H0 H) ].
Defined.

(* ================================================================== *)
(** ** The runtime: what is never asked *)
(* ================================================================== *)

(** The request a call of a fetcher sends passed its guard. *)
Lemma awaited_complete (f : Fetcher) (c : Watch.t) (r : Request) :
  awaited (stops_at (fetcher_body f c)) = Some r ->
  request_is_complete r = true.
Proof.
  destruct f; cbn [fetcher_body].
  - rewrite awaited_getInstitutions.
    destruct (Watch.currency c) as [cur |]; [| discriminate ].
    destruct (JS.falsy_string (Some cur)) eqn:E; [ discriminate |].
    intros H. injection H as <-. cbn [request_is_complete].
    rewrite E. reflexivity.
  - rewrite awaited_getRecipientName.
    destruct (Watch.accountIdentifier c) as [a |]; [| discriminate ].
    destruct (Watch.institution c) as [n |]; [| discriminate ].
    destruct (JS.falsy_string (Some a)) eqn:Ea; [ discriminate |].
    destruct (JS.falsy_string (Some n)) eqn:En; [ discriminate |].
    intros H. injection H as <-. cbn [request_is_complete].
    rewrite Ea, En. reflexivity.
  - rewrite awaited_getRate.
    destruct (Watch.currency c) as [cur |]; [| discriminate ].
    destruct (Watch.amount c) as [a |]; [| discriminate ].
    destruct (JS.falsy_string (Some cur)) eqn:Ec; [ discriminate |].
    destruct (JS.falsy_number (Some a)) eqn:Ea; [ discriminate |].
    destruct (JS.falsy_string (Watch.token c)); [ discriminate |].
    intros H. injection H as <-. cbn [request_is_complete].
    rewrite Ec, Ea. reflexivity.
Qed.

(** X14: whatever the events, no request goes out with an empty parameter:
    the institutions are never asked for an empty currency, the recipient
    name never for an empty institution or account identifier, the rate
    never for an empty currency or for an amount that is zero or [NaN]. *)
Theorem no_request_with_an_empty_parameter (events : list Event) :
  forallb (fun entry => request_is_complete (snd entry))
    (sent (runtime (run events mount))) = true.
Proof.
  assert (H : in_flight_ok (runtime (run events mount))
              /\ forallb (fun entry => request_is_complete (snd entry))
                   (sent (runtime (run events mount))) = true).
  { apply (run_invariant
             (fun rt => in_flight_ok rt
                        /\ forallb (fun entry => request_is_complete (snd entry))
                             (sent rt) = true)).
    - intros rt rt' Hnet [H1 H2]. split.
      + eapply in_flight_ok_same_net; eassumption.
      + destruct Hnet as (_ & _ & _ & -> & _). exact H2.
    - intros rt f c [H1 H2]. split.
      + apply in_flight_ok_continue. exact H1.
      + destruct (continue_spec (fetcher_body f c) rt)
          as (_ & _ & _ & -> & _).
        rewrite forallb_app, H2.
        destruct (awaited (stops_at (fetcher_body f c))) as [r |] eqn:Er;
          [| reflexivity ].
        cbn. rewrite (awaited_complete f c Er). reflexivity.
    - intros rt id o [H1 H2]. split.
      + apply in_flight_ok_settle. exact H1.
      + destruct H1 as (Hc & _).
        destruct (@settle_cases id o rt Hc)
          as [-> | (f & c & rest & _ & _ & _ & _ & _ & _ & ->)];
          exact H2.
    - split; [ exact mount_in_flight_ok | reflexivity ]. }
  apply H.
Qed.

(* ================================================================== *)
(** ** The callbacks of the pages *)
(* ================================================================== *)

Lemma act_keeps (st : HomeState) (a : Action) :
  (forall f : Fetcher, same_slots f st (act st a))
  /\ fee (act st a) = fee st
  /\ protocolFeePercent (act st a) = protocolFeePercent st
  /\ isPageLoading (act st a) = isPageLoading st.
Proof.
  split.
  - intros f. destruct a, f; split; reflexivity.
  - destruct a; repeat split; reflexivity.
Qed.

(** X15: what the pages can do through the callbacks [Home] hands them
    never touches what was fetched or computed: after any sequence of
    submissions, tab and network changes, status updates, clearings and
    back clicks, the institutions, the recipient name, the rate and their
    loading flags, the fee and its percent are as before, and the preloader
    is not raised again.  (The fetchers in turn leave the slots of the
    callbacks alone.) *)
Theorem callbacks_keep_what_was_fetched (actions : list Action)
  (st : HomeState) :
  let st' := fold_left act actions st in
  (forall f : Fetcher, same_slots f st st')
  /\ fee st' = fee st
  /\ protocolFeePercent st' = protocolFeePercent st
  /\ preloader_isLoading (render st') = preloader_isLoading (render st).
Proof.
  revert st. induction actions as [| a actions IH]; intros st.
  - cbn. repeat split; try reflexivity. intros f. apply same_slots_refl.
  - cbn [fold_left]. cbv zeta.
    destruct (IH (act st a)) as (Hs & Hf & Hp & Hl).
    destruct (act_keeps st a) as (Hs' & Hf' & Hp' & Hl').
    split; [| split; [| split ] ].
    + intros f. eapply same_slots_trans; [ apply Hs' | apply Hs ].
    + rewrite Hf. exact Hf'.
    + rewrite Hp. exact Hp'.
    + rewrite Hl. cbn [render preloader_isLoading]. exact Hl'.
Qed.

(* ================================================================== *)
(** ** Unmounting *)
(* ================================================================== *)

Lemma filter_none_in {A : Type} (f : A -> bool) (l : list A) :
  (forall x, In x l -> f x = false) -> filter f l = [].
Proof.
  induction l as [| x l IH]; intros H; [ reflexivity |].
  cbn [filter]. rewrite (H x (or_introl eq_refl)).
  apply IH. intros y Hy. apply H. right. exact Hy.
Qed.

(** X16: unmounting clears every pending timer, whatever happened before,
    so no request is sent afterwards however much time passes; a request
    in flight is not withdrawn and is still waited for. *)
Theorem unmount_clears_every_timer (events : list Event) (ms : nat) :
  let i := run events mount in
  timers (unmount i) = []
  /\ sent (elapse ms (unmount i)) = sent (runtime i)
  /\ in_flight (elapse ms (unmount i)) = in_flight (runtime i).
Proof.
  intros i.
  assert (Hown : timers_owned i).
  { subst i. generalize mount_timers_owned. generalize mount.
    induction events as [| ev events IH]; intros j Hj; [ exact Hj |].
    cbn [run fold_left]. apply IH. apply step_timers_owned. exact Hj. }
  destruct Hown as (r & q & Hr & Hq & _ & _ & _ & Hid).
  assert (Ht : timers (unmount i) = []).
  { unfold unmount. rewrite Hr, Hq. cbn [clearTimeout timers].
    rewrite filter_twice. apply filter_none_in.
    intros t Hin. rewrite (Hid t Hin).
    destruct (callback_fetcher (callback t));
      rewrite Nat.eqb_refl; cbn; rewrite ?andb_false_r; reflexivity. }
  split; [ exact Ht |].
  unfold elapse. rewrite Ht. cbn [filter fold_left at_time with_timers
                                  sent in_flight].
  unfold unmount. rewrite Hr, Hq. split; reflexivity.
Qed.
